(** * speech-to-isl-web: the browser client (static/js/script.js)

    A shallow embedding of the page script: the three submission handlers,
    the microphone recording controller, the recording timer and the result
    renderer, as functions on an explicit page state, together with the
    platform events (permission answers, recorder events, timer ticks and
    settled requests) that drive them. *)

From Stdlib Require Import List ZArith NArith Lia Bool Ascii Arith.
From Stdlib Require String.
Import ListNotations String.StringSyntax.
Delimit Scope string_scope with string.

Local Open Scope Z_scope.

(** ** JavaScript strings

    A JavaScript string is a sequence of UTF-16 code units.  String literals
    of the script are ASCII and written with [lit]. *)

Definition jschar := N.
Definition jsstring := list jschar.

Definition lit (s : String.string) : jsstring :=
  map N_of_ascii (String.list_ascii_of_string s).
Arguments lit s%_string.

(** [!s] on a string: only the empty string is falsy. *)
Definition falsy (s : jsstring) : bool :=
  match s with [] => true | _ => false end.

(** WhiteSpace and LineTerminator code points, the ones [trim] strips. *)
Definition is_ws (c : jschar) : bool :=
  (((9 <=? c) && (c <=? 13)) || (c =? 32) || (c =? 160) || (c =? 5760)
   || ((8192 <=? c) && (c <=? 8202)) || (c =? 8232) || (c =? 8233)
   || (c =? 8239) || (c =? 8287) || (c =? 12288) || (c =? 65279))%N.

Fixpoint trimStart (s : jsstring) : jsstring :=
  match s with
  | c :: r => if is_ws c then trimStart r else s
  | [] => []
  end.

Definition trimEnd (s : jsstring) : jsstring := rev (trimStart (rev s)).

(** [String.prototype.trim] *)
Definition trim (s : jsstring) : jsstring := trimEnd (trimStart s).

(** Surrogate code units, and the conversion of a string to a USVString
    that [FormData.append] applies to a string value: a high surrogate
    followed by a low one is kept, every other surrogate becomes U+FFFD. *)
Definition is_high (c : jschar) : bool := ((55296 <=? c) && (c <=? 56319))%N.
Definition is_low (c : jschar) : bool := ((56320 <=? c) && (c <=? 57343))%N.

Fixpoint to_usv (s : jsstring) : jsstring :=
  match s with
  | [] => []
  | c :: r =>
      if is_high c then
        match r with
        | d :: r' => if is_low d then c :: d :: to_usv r' else 65533%N :: to_usv r
        | [] => [65533%N]
        end
      else if is_low c then 65533%N :: to_usv r
      else c :: to_usv r
  end.

(** Strings without an unpaired surrogate. *)
Fixpoint well_formed (s : jsstring) : bool :=
  match s with
  | [] => true
  | c :: r =>
      if is_high c then
        match r with
        | d :: r' => is_low d && well_formed r'
        | [] => false
        end
      else negb (is_low c) && well_formed r
  end.

(** ** Numbers

    [Date.now()] yields integer milliseconds; the script only subtracts,
    divides with [Math.floor] and takes remainders, so integers model the
    numbers it handles. *)

Definition digit_char (d : Z) : jschar := (48 + Z.to_N d)%N.

Fixpoint dec_digits (fuel : nat) (n : Z) : jsstring :=
  match fuel with
  | O => []
  | S f =>
      if n <? 10 then [digit_char n]
      else dec_digits f (n / 10) ++ [digit_char (n mod 10)]
  end.

Definition dec_fuel (n : Z) : nat := S (Z.to_nat (Z.log2 n)).

(** [Number.prototype.toString] on an integer. *)
Definition toString (n : Z) : jsstring :=
  if n <? 0 then lit "-" ++ dec_digits (dec_fuel (- n)) (- n)
  else dec_digits (dec_fuel n) n.

(** [String.prototype.padStart] with a one-character filler. *)
Definition padStart (width : nat) (fill : jschar) (s : jsstring) : jsstring :=
  repeat fill (width - length s) ++ s.

(** [Math.floor(a / b)] for a positive divisor and [a % b], whose sign
    follows the dividend. *)
Definition floor_div (a b : Z) : Z := a / b.
Definition js_rem (a b : Z) : Z := Z.rem a b.

(** The text [updateRecordingTimer] writes at instant [now], for a recording
    started at [start]; [None] is the unset variable, on which the
    arithmetic yields NaN. *)
Definition timer_text (start : option Z) (now : Z) : jsstring :=
  match start with
  | None => lit "NaN:NaN"
  | Some s =>
      let elapsedSeconds := floor_div (now - s) 1000 in
      let minutes := padStart 2 48%N (toString (floor_div elapsedSeconds 60)) in
      let seconds := padStart 2 48%N (toString (js_rem elapsedSeconds 60)) in
      minutes ++ lit ":" ++ seconds
  end.

Fixpoint jsstring_eqb (a b : jsstring) : bool :=
  match a, b with
  | [], [] => true
  | x :: a', y :: b' => (x =? y)%N && jsstring_eqb a' b'
  | _, _ => false
  end.

(** ** Data carried by requests and responses *)

Record Blob := { blob_bytes : list Byte.byte; blob_type : jsstring }.

Record File := { file_name : jsstring; file_content : Blob }.

(** [new Blob(parts, { type })]: the parts in order, one after the other. *)
Definition new_Blob (parts : list Blob) (type : jsstring) : Blob :=
  {| blob_bytes := concat (map blob_bytes parts); blob_type := type |}.

Inductive FormValue :=
| FText (s : jsstring)
| FFile (f : File)
| FBlob (b : Blob).

(** A [FormData] object: its entries in the order they were appended. *)
Definition FormData := list (jsstring * FormValue).

Record Request := {
  req_url : jsstring;
  req_method : jsstring;
  req_body : FormData
}.

(** The object a response body parses to.  A field is absent ([None]) or a
    string; a value without the fields (a number, an array) behaves as the
    object with every field absent. *)
Record ResultPayload := {
  status : option jsstring;
  english_text : option jsstring;
  isl_text : option jsstring;
  video_path : option jsstring
}.

Inductive Json :=
| JNull
| JObject (data : ResultPayload).

(** How a dispatched request settles: [fetch] rejects, [response.json()]
    rejects, or the body parses. *)
Inductive Settlement :=
| NetworkError
| BodyNotJson
| Body (j : Json).

Inductive Variant := TextSubmission | FileSubmission | RecordingSubmission.

(** ** Observable effects, in the order the script performs them *)

Inductive Effect :=
| EPreventDefault
| EShowLoading
| EHideLoading
| EFetch (r : Request)
| EGetUserMedia
| EToast (message : jsstring)
| EConsoleError
| EVideoLoad
| EScrollIntoView.

(** ** Page state *)

(** The recording controls: [d-none] and [recording] class membership and
    text contents. *)
Record RecordingUI := {
  startBtn_dnone : bool;
  startBtn_recording : bool;
  stopBtn_dnone : bool;
  recordingStatus_text : jsstring;
  recordingTimer_dnone : bool;
  recordingTimer_text : jsstring
}.

Record ResultsUI := {
  resultsSection_dnone : bool;
  englishTextResult_text : jsstring;
  islTextResult_text : jsstring;
  islVideo_src : jsstring
}.

Inductive RecorderState :=
| RNew                (* 'inactive', not started yet *)
| RRecording          (* state 'recording' *)
| RStopping           (* 'inactive', its last events not yet delivered *)
| RStopped.           (* 'inactive', 'stop' delivered *)

(** A [MediaRecorder] with the stream it was built on; [track_stops] counts
    the calls of [track.stop()] on the stream's track. *)
Record Recorder := {
  rec_state : RecorderState;
  track_stops : nat
}.

Record State := {
  (* DOM *)
  recUI : RecordingUI;
  resUI : ResultsUI;
  loadingOverlay_dnone : bool;
  (* script variables *)
  mediaRecorder : option nat;
  audioChunks : list Blob;
  recordingStartTime : option Z;
  recordingTimerInterval : option nat;
  (* platform *)
  pendingPermissions : nat;
  recorders : list Recorder;
  intervals : list nat;
  timersCreated : nat;
  fetches : list (nat * Variant);
  fetchesCreated : nat;
  log : list Effect
}.

Definition Handler := State -> State.

Definition andThen (f g : Handler) : Handler := fun st => g (f st).
Notation "f ;; g" := (andThen f g) (at level 61, right associativity).

Definition with_recUI (f : RecordingUI -> RecordingUI) : Handler := fun st =>
  {| recUI := f (recUI st); resUI := resUI st;
     loadingOverlay_dnone := loadingOverlay_dnone st;
     mediaRecorder := mediaRecorder st; audioChunks := audioChunks st;
     recordingStartTime := recordingStartTime st;
     recordingTimerInterval := recordingTimerInterval st;
     pendingPermissions := pendingPermissions st; recorders := recorders st;
     intervals := intervals st; timersCreated := timersCreated st;
     fetches := fetches st; fetchesCreated := fetchesCreated st;
     log := log st |}.

Definition with_resUI (f : ResultsUI -> ResultsUI) : Handler := fun st =>
  {| recUI := recUI st; resUI := f (resUI st);
     loadingOverlay_dnone := loadingOverlay_dnone st;
     mediaRecorder := mediaRecorder st; audioChunks := audioChunks st;
     recordingStartTime := recordingStartTime st;
     recordingTimerInterval := recordingTimerInterval st;
     pendingPermissions := pendingPermissions st; recorders := recorders st;
     intervals := intervals st; timersCreated := timersCreated st;
     fetches := fetches st; fetchesCreated := fetchesCreated st;
     log := log st |}.

Definition set_loading_dnone (b : bool) : Handler := fun st =>
  {| recUI := recUI st; resUI := resUI st;
     loadingOverlay_dnone := b;
     mediaRecorder := mediaRecorder st; audioChunks := audioChunks st;
     recordingStartTime := recordingStartTime st;
     recordingTimerInterval := recordingTimerInterval st;
     pendingPermissions := pendingPermissions st; recorders := recorders st;
     intervals := intervals st; timersCreated := timersCreated st;
     fetches := fetches st; fetchesCreated := fetchesCreated st;
     log := log st |}.

Definition set_mediaRecorder (r : option nat) : Handler := fun st =>
  {| recUI := recUI st; resUI := resUI st;
     loadingOverlay_dnone := loadingOverlay_dnone st;
     mediaRecorder := r; audioChunks := audioChunks st;
     recordingStartTime := recordingStartTime st;
     recordingTimerInterval := recordingTimerInterval st;
     pendingPermissions := pendingPermissions st; recorders := recorders st;
     intervals := intervals st; timersCreated := timersCreated st;
     fetches := fetches st; fetchesCreated := fetchesCreated st;
     log := log st |}.

Definition set_audioChunks (c : list Blob) : Handler := fun st =>
  {| recUI := recUI st; resUI := resUI st;
     loadingOverlay_dnone := loadingOverlay_dnone st;
     mediaRecorder := mediaRecorder st; audioChunks := c;
     recordingStartTime := recordingStartTime st;
     recordingTimerInterval := recordingTimerInterval st;
     pendingPermissions := pendingPermissions st; recorders := recorders st;
     intervals := intervals st; timersCreated := timersCreated st;
     fetches := fetches st; fetchesCreated := fetchesCreated st;
     log := log st |}.

Definition set_recordingStartTime (t : option Z) : Handler := fun st =>
  {| recUI := recUI st; resUI := resUI st;
     loadingOverlay_dnone := loadingOverlay_dnone st;
     mediaRecorder := mediaRecorder st; audioChunks := audioChunks st;
     recordingStartTime := t;
     recordingTimerInterval := recordingTimerInterval st;
     pendingPermissions := pendingPermissions st; recorders := recorders st;
     intervals := intervals st; timersCreated := timersCreated st;
     fetches := fetches st; fetchesCreated := fetchesCreated st;
     log := log st |}.

Definition set_recordingTimerInterval (i : option nat) : Handler := fun st =>
  {| recUI := recUI st; resUI := resUI st;
     loadingOverlay_dnone := loadingOverlay_dnone st;
     mediaRecorder := mediaRecorder st; audioChunks := audioChunks st;
     recordingStartTime := recordingStartTime st;
     recordingTimerInterval := i;
     pendingPermissions := pendingPermissions st; recorders := recorders st;
     intervals := intervals st; timersCreated := timersCreated st;
     fetches := fetches st; fetchesCreated := fetchesCreated st;
     log := log st |}.

Definition set_pendingPermissions (n : nat) : Handler := fun st =>
  {| recUI := recUI st; resUI := resUI st;
     loadingOverlay_dnone := loadingOverlay_dnone st;
     mediaRecorder := mediaRecorder st; audioChunks := audioChunks st;
     recordingStartTime := recordingStartTime st;
     recordingTimerInterval := recordingTimerInterval st;
     pendingPermissions := n; recorders := recorders st;
     intervals := intervals st; timersCreated := timersCreated st;
     fetches := fetches st; fetchesCreated := fetchesCreated st;
     log := log st |}.

Definition set_recorders (r : list Recorder) : Handler := fun st =>
  {| recUI := recUI st; resUI := resUI st;
     loadingOverlay_dnone := loadingOverlay_dnone st;
     mediaRecorder := mediaRecorder st; audioChunks := audioChunks st;
     recordingStartTime := recordingStartTime st;
     recordingTimerInterval := recordingTimerInterval st;
     pendingPermissions := pendingPermissions st; recorders := r;
     intervals := intervals st; timersCreated := timersCreated st;
     fetches := fetches st; fetchesCreated := fetchesCreated st;
     log := log st |}.

Definition set_intervals (l : list nat) (created : nat) : Handler := fun st =>
  {| recUI := recUI st; resUI := resUI st;
     loadingOverlay_dnone := loadingOverlay_dnone st;
     mediaRecorder := mediaRecorder st; audioChunks := audioChunks st;
     recordingStartTime := recordingStartTime st;
     recordingTimerInterval := recordingTimerInterval st;
     pendingPermissions := pendingPermissions st; recorders := recorders st;
     intervals := l; timersCreated := created;
     fetches := fetches st; fetchesCreated := fetchesCreated st;
     log := log st |}.

Definition set_fetches (l : list (nat * Variant)) (created : nat) : Handler :=
  fun st =>
  {| recUI := recUI st; resUI := resUI st;
     loadingOverlay_dnone := loadingOverlay_dnone st;
     mediaRecorder := mediaRecorder st; audioChunks := audioChunks st;
     recordingStartTime := recordingStartTime st;
     recordingTimerInterval := recordingTimerInterval st;
     pendingPermissions := pendingPermissions st; recorders := recorders st;
     intervals := intervals st; timersCreated := timersCreated st;
     fetches := l; fetchesCreated := created;
     log := log st |}.

Definition emit (e : Effect) : Handler := fun st =>
  {| recUI := recUI st; resUI := resUI st;
     loadingOverlay_dnone := loadingOverlay_dnone st;
     mediaRecorder := mediaRecorder st; audioChunks := audioChunks st;
     recordingStartTime := recordingStartTime st;
     recordingTimerInterval := recordingTimerInterval st;
     pendingPermissions := pendingPermissions st; recorders := recorders st;
     intervals := intervals st; timersCreated := timersCreated st;
     fetches := fetches st; fetchesCreated := fetchesCreated st;
     log := log st ++ [e] |}.

(** ** The script's functions

    Each function is a state transformer; the platform calls made inside
    them ([new MediaRecorder], [start], [load], ...) are taken to succeed. *)

(** [showLoading] / [hideLoading] *)
Definition showLoading : Handler :=
  emit EShowLoading ;; set_loading_dnone false.

Definition hideLoading : Handler :=
  emit EHideLoading ;; set_loading_dnone true.

(** [showError(message)]: one toast per call. *)
Definition showError (message : jsstring) : Handler :=
  emit (EToast message).

Definition console_error : Handler := emit EConsoleError.

(** [fetch(url, { method: 'POST', body })]: the request leaves and its
    settlement is awaited under a fresh number. *)
Definition fetch (v : Variant) (url : jsstring) (body : FormData) : Handler :=
  emit (EFetch {| req_url := url; req_method := lit "POST"; req_body := body |}) ;;
  (fun st => set_fetches (fetches st ++ [(fetchesCreated st, v)])
                         (S (fetchesCreated st)) st).

(** [a || b] on an optional string field. *)
Definition or_else (a : option jsstring) (b : jsstring) : jsstring :=
  match a with
  | Some s => if falsy s then b else s
  | None => b
  end.

Definition truthy (a : option jsstring) : bool :=
  match a with
  | Some s => negb (falsy s)
  | None => false
  end.

(** [`${a}`] on an optional string field. *)
Definition interpolate (a : option jsstring) : jsstring :=
  match a with
  | Some s => s
  | None => lit "undefined"
  end.

(** [data.status === 'success'] *)
Definition is_success (data : ResultPayload) : bool :=
  match status data with
  | Some s => jsstring_eqb s (lit "success")
  | None => false
  end.

(** [displayResults(data)] *)
Definition displayResults (data : ResultPayload) : Handler :=
  with_resUI (fun u =>
    {| resultsSection_dnone := resultsSection_dnone u;
       englishTextResult_text := or_else (english_text data) (lit "No text recognized");
       islTextResult_text := islTextResult_text u;
       islVideo_src := islVideo_src u |}) ;;
  with_resUI (fun u =>
    {| resultsSection_dnone := resultsSection_dnone u;
       englishTextResult_text := englishTextResult_text u;
       islTextResult_text := or_else (isl_text data) (lit "No ISL conversion available");
       islVideo_src := islVideo_src u |}) ;;
  (if truthy (video_path data) then
     with_resUI (fun u =>
       {| resultsSection_dnone := resultsSection_dnone u;
          englishTextResult_text := englishTextResult_text u;
          islTextResult_text := islTextResult_text u;
          islVideo_src := lit "/static/" ++ interpolate (video_path data) |}) ;;
     emit EVideoLoad
   else
     with_resUI (fun u =>
       {| resultsSection_dnone := resultsSection_dnone u;
          englishTextResult_text := englishTextResult_text u;
          islTextResult_text := islTextResult_text u;
          islVideo_src := [] |})) ;;
  with_resUI (fun u =>
    {| resultsSection_dnone := false;
       englishTextResult_text := englishTextResult_text u;
       islTextResult_text := islTextResult_text u;
       islVideo_src := islVideo_src u |}) ;;
  emit EScrollIntoView.

(** A promise chain [fetch(..).then(r => r.json()).then(onData).catch(onError)]:
    [onError] runs when the request or the parse fails, and also when
    [onData] itself throws. *)
Inductive Completion :=
| Returns (st : State)
| Throws (st : State).

Definition promise_chain (onData : Json -> State -> Completion)
    (onError : Handler) (o : Settlement) : Handler := fun st =>
  match o with
  | Body j =>
      match onData j st with
      | Returns st' => st'
      | Throws st' => onError st'
      end
  | NetworkError | BodyNotJson => onError st
  end.

(** Reading [data.status] throws a TypeError on [null]. *)
Definition on_status (j : Json) (k : ResultPayload -> Handler) (st : State)
    : Completion :=
  match j with
  | JNull => Throws st
  | JObject data => Returns (k data st)
  end.

(** [handleTextSubmit(e)], with [value] the content of the text input. *)
Definition handleTextSubmit (value : jsstring) : Handler :=
  emit EPreventDefault ;;
  let textInput := trim value in
  if falsy textInput then (fun st => st)
  else
    showLoading ;;
    fetch TextSubmission (lit "/process_text")
          [(lit "text", FText (to_usv textInput))].

Definition handleTextSubmit_then (j : Json) (st : State) : Completion :=
  on_status j (fun data =>
    if is_success data then displayResults data
    else showError (lit "Failed to process text. Please try again."))
    (hideLoading st).

Definition handleTextSubmit_catch : Handler :=
  hideLoading ;;
  showError (lit "An error occurred. Please try again.") ;;
  console_error.

(** [handleAudioUploadSubmit(e)], with [files0] the input's [files[0]]. *)
Definition handleAudioUploadSubmit (files0 : option File) : Handler :=
  emit EPreventDefault ;;
  match files0 with
  | None => fun st => st
  | Some audioFile =>
      showLoading ;;
      fetch FileSubmission (lit "/process_audio") [(lit "audio", FFile audioFile)]
  end.

Definition handleAudioUploadSubmit_then (j : Json) (st : State) : Completion :=
  on_status j (fun data =>
    if is_success data then displayResults data
    else showError (lit "Failed to process audio. Please try again."))
    (hideLoading st).

Definition handleAudioUploadSubmit_catch : Handler :=
  hideLoading ;;
  showError (lit "An error occurred. Please try again.") ;;
  console_error.

(** [updateRecordingTimer()], run at instant [now]. *)
Definition updateRecordingTimer (now : Z) : Handler := fun st =>
  with_recUI (fun u =>
    {| startBtn_dnone := startBtn_dnone u;
       startBtn_recording := startBtn_recording u;
       stopBtn_dnone := stopBtn_dnone u;
       recordingStatus_text := recordingStatus_text u;
       recordingTimer_dnone := recordingTimer_dnone u;
       recordingTimer_text := timer_text (recordingStartTime st) now |}) st.

(** The five statements under "Reset recording UI". *)
Definition reset_recording_UI : Handler :=
  with_recUI (fun u =>
    {| startBtn_dnone := false;
       startBtn_recording := false;
       stopBtn_dnone := true;
       recordingStatus_text := lit "Click the microphone to start recording";
       recordingTimer_dnone := true;
       recordingTimer_text := recordingTimer_text u |}).

(** [processRecordedAudio()] *)
Definition processRecordedAudio : Handler :=
  showLoading ;;
  (fun st =>
     let audioBlob := new_Blob (audioChunks st) (lit "audio/webm") in
     fetch RecordingSubmission (lit "/record_audio")
           [(lit "audio", FBlob audioBlob)] st).

Definition processRecordedAudio_then (j : Json) (st : State) : Completion :=
  on_status j (fun data =>
    if is_success data then displayResults data
    else showError (lit "Failed to process recording. Please try again."))
    ((hideLoading ;; reset_recording_UI) st).

Definition processRecordedAudio_catch : Handler :=
  hideLoading ;;
  reset_recording_UI ;;
  showError (lit "An error occurred. Please try again.") ;;
  console_error.

(** [startRecording()]: asks for the microphone; the answer arrives later. *)
Definition startRecording : Handler :=
  emit EGetUserMedia ;;
  (fun st => set_pendingPermissions (S (pendingPermissions st)) st).

Definition set_rec_state (rid : nat) (s : RecorderState) (l : list Recorder)
    : list Recorder :=
  match nth_error l rid with
  | Some r =>
      firstn rid l ++ {| rec_state := s; track_stops := track_stops r |}
        :: skipn (S rid) l
  | None => l
  end.

Definition stop_tracks (rid : nat) (l : list Recorder) : list Recorder :=
  match nth_error l rid with
  | Some r =>
      firstn rid l
        ++ {| rec_state := rec_state r; track_stops := S (track_stops r) |}
        :: skipn (S rid) l
  | None => l
  end.

(** The [.then(stream => ...)] of [startRecording], up to and including
    [setInterval]; the two listeners it installs are [on_dataavailable] and
    [on_stop] below.  [t0] and [t1] are the two readings of [Date.now()]. *)
Definition startRecording_granted (t0 t1 : Z) : Handler :=
  with_recUI (fun u =>
    {| startBtn_dnone := true;
       startBtn_recording := startBtn_recording u;
       stopBtn_dnone := false;
       recordingStatus_text := lit "Recording...";
       recordingTimer_dnone := false;
       recordingTimer_text := recordingTimer_text u |}) ;;
  (fun st =>
     (set_mediaRecorder (Some (length (recorders st))) ;;
      set_recorders (recorders st ++ [{| rec_state := RNew; track_stops := 0 |}]))
       st) ;;
  set_audioChunks [] ;;
  (fun st =>
     match mediaRecorder st with
     | Some rid => set_recorders (set_rec_state rid RRecording (recorders st)) st
     | None => st
     end) ;;
  with_recUI (fun u =>
    {| startBtn_dnone := startBtn_dnone u;
       startBtn_recording := true;
       stopBtn_dnone := stopBtn_dnone u;
       recordingStatus_text := recordingStatus_text u;
       recordingTimer_dnone := recordingTimer_dnone u;
       recordingTimer_text := recordingTimer_text u |}) ;;
  set_recordingStartTime (Some t0) ;;
  updateRecordingTimer t1 ;;
  (fun st =>
     (set_recordingTimerInterval (Some (timersCreated st)) ;;
      set_intervals (intervals st ++ [timersCreated st]) (S (timersCreated st)))
       st).

(** The [.catch] of [startRecording]. *)
Definition startRecording_denied : Handler :=
  showError (lit "Could not access microphone. Please check your permissions.") ;;
  console_error.

(** The ['dataavailable'] listener. *)
Definition on_dataavailable (data : Blob) : Handler := fun st =>
  set_audioChunks (audioChunks st ++ [data]) st.

(** [clearInterval(id)] *)
Definition clearInterval (id : option nat) : Handler := fun st =>
  match id with
  | Some i =>
      set_intervals (filter (fun j => negb (Nat.eqb j i)) (intervals st))
                    (timersCreated st) st
  | None => st
  end.

(** The ['stop'] listener of the recorder [rid]; the stream it releases is
    the one that recorder was built on. *)
Definition on_stop (rid : nat) : Handler :=
  (fun st => clearInterval (recordingTimerInterval st) st) ;;
  (fun st => set_recorders (stop_tracks rid (recorders st)) st) ;;
  processRecordedAudio.

Definition recorder_state (st : State) (rid : nat) : option RecorderState :=
  option_map rec_state (nth_error (recorders st) rid).

(** [stopRecording()] *)
Definition stopRecording : Handler := fun st =>
  match mediaRecorder st with
  | Some rid =>
      match recorder_state st rid with
      | Some RRecording =>
          (set_recorders (set_rec_state rid RStopping (recorders st)) ;;
           with_recUI (fun u =>
             {| startBtn_dnone := startBtn_dnone u;
                startBtn_recording := startBtn_recording u;
                stopBtn_dnone := stopBtn_dnone u;
                recordingStatus_text := lit "Processing audio...";
                recordingTimer_dnone := recordingTimer_dnone u;
                recordingTimer_text := recordingTimer_text u |})) st
      | _ => st
      end
  | None => st
  end.

(** ** Events

    What reaches the script: the user's actions and the platform's
    callbacks.  An event that cannot occur in a state (a click on a hidden
    button, an answer nobody waits for) has no successor. *)

Inductive Event :=
| SubmitText (value : jsstring)
| SubmitFile (files0 : option File)
| ClickStart
| PermissionGranted (t0 t1 : Z)
| PermissionDenied
| ClickStop
| DataAvailable (rid : nat) (data : Blob)
| RecorderStopped (rid : nat)
| Tick (iid : nat) (now : Z)
| Settled (fid : nat) (o : Settlement).

Definition capturing (s : option RecorderState) : bool :=
  match s with
  | Some RRecording | Some RStopping => true
  | _ => false
  end.

Fixpoint pending_variant (fid : nat) (l : list (nat * Variant)) : option Variant :=
  match l with
  | [] => None
  | (i, v) :: r => if Nat.eqb i fid then Some v else pending_variant fid r
  end.

Definition remove_fetch (fid : nat) : Handler := fun st =>
  set_fetches (filter (fun p => negb (Nat.eqb (fst p) fid)) (fetches st))
              (fetchesCreated st) st.

(** The continuation of a settled request of each variant. *)
Definition settle (v : Variant) (o : Settlement) : Handler :=
  match v with
  | TextSubmission =>
      promise_chain handleTextSubmit_then handleTextSubmit_catch o
  | FileSubmission =>
      promise_chain handleAudioUploadSubmit_then handleAudioUploadSubmit_catch o
  | RecordingSubmission =>
      promise_chain processRecordedAudio_then processRecordedAudio_catch o
  end.

Definition step (st : State) (e : Event) : option State :=
  match e with
  | SubmitText value => Some (handleTextSubmit value st)
  | SubmitFile files0 => Some (handleAudioUploadSubmit files0 st)
  | ClickStart =>
      if startBtn_dnone (recUI st) then None else Some (startRecording st)
  | PermissionGranted t0 t1 =>
      match pendingPermissions st with
      | S n => Some ((set_pendingPermissions n ;; startRecording_granted t0 t1) st)
      | O => None
      end
  | PermissionDenied =>
      match pendingPermissions st with
      | S n => Some ((set_pendingPermissions n ;; startRecording_denied) st)
      | O => None
      end
  | ClickStop =>
      if stopBtn_dnone (recUI st) then None else Some (stopRecording st)
  | DataAvailable rid data =>
      if capturing (recorder_state st rid)
      then Some (on_dataavailable data st) else None
  | RecorderStopped rid =>
      if capturing (recorder_state st rid)
      then Some ((set_recorders (set_rec_state rid RStopped (recorders st)) ;;
                  on_stop rid) st)
      else None
  | Tick iid now =>
      if existsb (Nat.eqb iid) (intervals st)
      then Some (updateRecordingTimer now st) else None
  | Settled fid o =>
      match pending_variant fid (fetches st) with
      | Some v => Some ((remove_fetch fid ;; settle v o) st)
      | None => None
      end
  end.

Fixpoint run (st : State) (es : list Event) : option State :=
  match es with
  | [] => Some st
  | e :: r =>
      match step st e with
      | Some st' => run st' r
      | None => None
      end
  end.

(** The recording controls as the reset statements leave them. *)
Definition idle_presentation (u : RecordingUI) : Prop :=
  startBtn_dnone u = false /\ startBtn_recording u = false /\
  stopBtn_dnone u = true /\
  recordingStatus_text u = lit "Click the microphone to start recording" /\
  recordingTimer_dnone u = true.

(** Modelled from the spec: the page markup is not among the sources.  The
    page loads in the idle presentation, with the loading overlay and the
    results region hidden, no variable set and nothing pending. *)
Definition page_loaded : State :=
  {| recUI := {| startBtn_dnone := false; startBtn_recording := false;
                 stopBtn_dnone := true;
                 recordingStatus_text := lit "Click the microphone to start recording";
                 recordingTimer_dnone := true;
                 recordingTimer_text := lit "00:00" |};
     resUI := {| resultsSection_dnone := true; englishTextResult_text := [];
                 islTextResult_text := []; islVideo_src := [] |};
     loadingOverlay_dnone := true;
     mediaRecorder := None; audioChunks := [];
     recordingStartTime := None; recordingTimerInterval := None;
     pendingPermissions := 0; recorders := []; intervals := [];
     timersCreated := 0; fetches := []; fetchesCreated := 0;
     log := [] |}.

Definition reachable (st : State) : Prop :=
  exists es, run page_loaded es = Some st.

(** Sessions that are capturing, and sessions whose device track has not
    been released. *)
Definition active_sessions (st : State) : nat :=
  length (filter (fun r => match rec_state r with RRecording => true | _ => false end)
                 (recorders st)).

Definition unreleased_sessions (st : State) : nat :=
  length (filter (fun r => Nat.eqb (track_stops r) 0) (recorders st)).

Definition requests (l : list Effect) : list Request :=
  flat_map (fun e => match e with EFetch r => [r] | _ => [] end) l.

Definition toasts (l : list Effect) : list jsstring :=
  flat_map (fun e => match e with EToast m => [m] | _ => [] end) l.

Definition hides (l : list Effect) : nat :=
  length (filter (fun e => match e with EHideLoading => true | _ => false end) l).

Arguments requests l : simpl never.
Arguments toasts l : simpl never.
Arguments hides l : simpl never.

(** Whitespace-only strings, and what trimming means. *)
Definition all_ws (s : jsstring) : bool := forallb is_ws s.

(** [t] is [s] without its leading and trailing whitespace. *)
Definition stripped_of (s t : jsstring) : Prop :=
  (exists a b, all_ws a = true /\ all_ws b = true /\ s = a ++ t ++ b) /\
  match t with
  | [] => True
  | c :: _ => is_ws c = false /\ is_ws (last t c) = false
  end.

(** ** Reading the timer

    The stated format of the timer, and the number of seconds a rendered
    text stands for. *)

(** A number below 100 as exactly two decimal digits. *)
Definition two_digits (n : Z) : jsstring :=
  [digit_char (n / 10); digit_char (n mod 10)].

(** A field zero-padded to width 2: two digits up to 99, the plain decimal
    numeral from 100 on. *)
Definition zero_padded2 (n : Z) : jsstring :=
  if n <? 100 then two_digits n else toString n.

(** [MM:SS] for a number of elapsed seconds. *)
Definition MMSS (elapsedSeconds : Z) : jsstring :=
  zero_padded2 (elapsedSeconds / 60) ++ lit ":" ++ zero_padded2 (elapsedSeconds mod 60).

Definition is_digit (c : jschar) : bool := ((48 <=? c) && (c <=? 57))%N.

Definition read_digit (c : jschar) : option Z :=
  if is_digit c then Some (Z.of_N c - 48) else None.

Fixpoint read_dec_acc (acc : Z) (s : jsstring) : option Z :=
  match s with
  | [] => Some acc
  | c :: r =>
      match read_digit c with
      | Some d => read_dec_acc (10 * acc + d) r
      | None => None
      end
  end.

Definition read_dec (s : jsstring) : option Z :=
  match s with
  | [] => None
  | _ => read_dec_acc 0 s
  end.

Fixpoint split_colon (s : jsstring) : option (jsstring * jsstring) :=
  match s with
  | [] => None
  | c :: r =>
      if (c =? 58)%N then Some ([], r)
      else match split_colon r with
           | Some (a, b) => Some (c :: a, b)
           | None => None
           end
  end.

(** The seconds a timer text displays: 60 times the minutes field plus the
    seconds field. *)
Definition read_timer (s : jsstring) : option Z :=
  match split_colon s with
  | Some (m, x) =>
      match read_dec m, read_dec x with
      | Some a, Some b => Some (60 * a + b)
      | _, _ => None
      end
  | None => None
  end.

(** ** Submissions and their outcomes *)

(** The branch a settlement ends in.  A body that parses to [null] is none
    of the three: there the data handler faults when it reads the status,
    after it has hidden the overlay, and the failure handler runs as well. *)
Inductive Branch := Success | NonSuccessStatus | TransportFailure.

Definition branch_of (o : Settlement) : option Branch :=
  match o with
  | NetworkError | BodyNotJson => Some TransportFailure
  | Body (JObject data) =>
      Some (if is_success data then Success else NonSuccessStatus)
  | Body JNull => None
  end.

(** The variant an event dispatches, if it dispatches one. *)
Definition submits (e : Event) : option Variant :=
  match e with
  | SubmitText value => if falsy (trim value) then None else Some TextSubmission
  | SubmitFile (Some _) => Some FileSubmission
  | RecorderStopped _ => Some RecordingSubmission
  | _ => None
  end.

(** Events that neither dispatch nor settle a submission. *)
Definition quiet (e : Event) : bool :=
  match e with
  | Settled _ _ => false
  | _ => match submits e with Some _ => false | None => true end
  end.

(** A sequence of render calls. *)
Definition renders (ds : list ResultPayload) (st : State) : State :=
  fold_left (fun s d => displayResults d s) ds st.

(** The state a sequence of events leads to from the loaded page (the
    loaded page itself when the sequence cannot occur). *)
Definition after (es : list Event) : State :=
  match run page_loaded es with
  | Some st => st
  | None => page_loaded
  end.

(** ** Sessions under a guarded start

    What the page keeps when the start button is not used while a
    permission request is pending. *)

Definition is_unstopped (r : Recorder) : bool :=
  match rec_state r with
  | RRecording | RStopping => true
  | RNew | RStopped => false
  end.

Definition count_unstopped (l : list Recorder) : nat :=
  length (filter is_unstopped l).

Definition is_upload (p : nat * Variant) : bool :=
  match snd p with
  | RecordingSubmission => true
  | _ => false
  end.

Definition count_uploads (l : list (nat * Variant)) : nat :=
  length (filter is_upload l).

Arguments count_unstopped l : simpl never.
Arguments count_uploads l : simpl never.

Definition guarded_step (st : State) (e : Event) : option State :=
  match e with
  | ClickStart =>
      match pendingPermissions st with
      | O => step st ClickStart
      | S _ => None
      end
  | _ => step st e
  end.

Fixpoint guarded_run (st : State) (es : list Event) : option State :=
  match es with
  | [] => Some st
  | e :: r =>
      match guarded_step st e with
      | Some st' => guarded_run st' r
      | None => None
      end
  end.

(** At most one of: a pending permission request, a session not yet
    stopped, an upload of a recording in flight; and the start button is
    shown only when there is no session and no upload. *)
Definition single_session (st : State) : Prop :=
  (count_unstopped (recorders st) + pendingPermissions st <= 1)%nat /\
  (count_unstopped (recorders st) + count_uploads (fetches st) <= 1)%nat /\
  (startBtn_dnone (recUI st) = false ->
   count_unstopped (recorders st) = 0%nat /\
   count_uploads (fetches st) = 0%nat) /\
  (startBtn_dnone (recUI st) = true -> pendingPermissions st = 0%nat).

(** ** Notifications, capture and resources *)

(** The message of the non-success branch of each variant. *)
Definition failure_message (v : Variant) : jsstring :=
  match v with
  | TextSubmission => lit "Failed to process text. Please try again."
  | FileSubmission => lit "Failed to process audio. Please try again."
  | RecordingSubmission => lit "Failed to process recording. Please try again."
  end.

Definition generic_error : jsstring :=
  lit "An error occurred. Please try again.".

Definition microphone_error : jsstring :=
  lit "Could not access microphone. Please check your permissions.".

(** Every literal the script passes to [showError]. *)
Definition known_messages : list jsstring :=
  [failure_message TextSubmission; failure_message FileSubmission;
   failure_message RecordingSubmission; generic_error; microphone_error].

(** The notifications an event leads to in a state. *)
Definition new_toasts (st : State) (e : Event) : list jsstring :=
  match e with
  | PermissionDenied => [microphone_error]
  | Settled fid o =>
      match pending_variant fid (fetches st) with
      | Some v =>
          match branch_of o with
          | Some Success => []
          | Some NonSuccessStatus => [failure_message v]
          | Some TransportFailure | None => [generic_error]
          end
      | None => []
      end
  | _ => []
  end.

(** The results region after a settlement: rendered from the payload in the
    success branch, left alone in every other. *)
Definition results_after (o : Settlement) (st : State) : ResultsUI :=
  match o with
  | Body (JObject data) =>
      if is_success data then resUI (displayResults data st) else resUI st
  | _ => resUI st
  end.

(** The chunk sequence a sequence of events builds from [acc]. *)
Definition capture (acc : list Blob) (es : list Event) : list Blob :=
  fold_left (fun c e =>
               match e with
               | PermissionGranted _ _ => []
               | DataAvailable _ data => c ++ [data]
               | _ => c
               end) es acc.

(** The buffers delivered by a sequence of events, in arrival order. *)
Definition buffers (es : list Event) : list Blob :=
  flat_map (fun e => match e with DataAvailable _ data => [data] | _ => [] end) es.

Definition is_grant (e : Event) : bool :=
  match e with
  | PermissionGranted _ _ => true
  | _ => false
  end.

(** Replacing the element at a position, the shape of both [set_rec_state]
    and [stop_tracks]. *)
Fixpoint update_at (n : nat) (f : Recorder -> Recorder) (l : list Recorder)
    : list Recorder :=
  match l, n with
  | [], _ => []
  | x :: r, O => f x :: r
  | x :: r, S m => x :: update_at m f r
  end.

(** A recorder has its track released exactly when its stop was handled. *)
Definition released_on_stop (r : Recorder) : bool :=
  match rec_state r with
  | RNew => false
  | RRecording | RStopping => Nat.eqb (track_stops r) 0
  | RStopped => Nat.eqb (track_stops r) 1
  end.

(** The timer is registered exactly while a session is not stopped, and
    the script's variable holds it. *)
Definition timer_follows_session (st : State) : Prop :=
  (count_unstopped (recorders st) = 0%nat -> intervals st = []) /\
  (count_unstopped (recorders st) = 1%nat ->
   exists i, intervals st = [i] /\ recordingTimerInterval st = Some i).

(** ** Between a stop and a settlement *)

(** The event settles an upload of a recording. *)
Definition settles_recording (st : State) (e : Event) : bool :=
  match e with
  | Settled fid _ =>
      match pending_variant fid (fetches st) with
      | Some RecordingSubmission => true
      | _ => false
      end
  | _ => false
  end.

(** A run during which no upload of a recording settles. *)
Fixpoint run_unsettled (st : State) (es : list Event) : option State :=
  match es with
  | [] => Some st
  | e :: r =>
      if settles_recording st e then None
      else match step st e with
           | Some st' => run_unsettled st' r
           | None => None
           end
  end.

(** The class state the grant handler gives the recording controls. *)
Definition recording_presentation (u : RecordingUI) : Prop :=
  startBtn_dnone u = true /\ startBtn_recording u = true /\
  stopBtn_dnone u = false /\ recordingTimer_dnone u = false.

(** * Properties *)

(** ** Sample evaluations *)

Example timer_text_75s : timer_text (Some 1000) 76999 = lit "01:15".
Proof. reflexivity. Qed.

Example timer_text_long : timer_text (Some 0) 6000000 = lit "100:00".
Proof. reflexivity. Qed.

Example trim_ex : trim (lit "  hello world  ") = lit "hello world".
Proof. reflexivity. Qed.

(** ** Trimming *)

Lemma trimStart_split (s : jsstring) :
  exists a, all_ws a = true /\ s = a ++ trimStart s.
Proof.
  induction s as [|c s [a [Ha Hs]]]; [exists []; split; reflexivity|].
  simpl. destruct (is_ws c) eqn:E.
  - exists (c :: a). simpl. rewrite E, Ha. split; [reflexivity|]. now f_equal.
  - exists []. split; reflexivity.
Qed.

Lemma trimStart_head (s : jsstring) :
  match trimStart s with [] => True | c :: _ => is_ws c = false end.
Proof.
  induction s as [|c s IH]; simpl; [exact I|].
  destruct (is_ws c) eqn:E; [exact IH | exact E].
Qed.

Lemma trimStart_ws_app (a s : jsstring) :
  all_ws a = true -> trimStart (a ++ s) = trimStart s.
Proof.
  induction a as [|c a IH]; simpl; [reflexivity|].
  intros H. apply andb_prop in H as [Hc Ha]. rewrite Hc. now apply IH.
Qed.

Lemma trimStart_all_ws (s : jsstring) :
  all_ws s = true <-> trimStart s = [].
Proof.
  induction s as [|c s IH]; simpl; [tauto|].
  destruct (is_ws c); simpl; [exact IH|]. split; discriminate.
Qed.

Lemma trimStart_fixed (s : jsstring) (c : jschar) :
  is_ws c = false -> trimStart (c :: s) = c :: s.
Proof. intros H. simpl. now rewrite H. Qed.

Lemma trimStart_app_keep (s r : jsstring) :
  trimStart s <> [] -> trimStart (s ++ r) = trimStart s ++ r.
Proof.
  induction s as [|c s IH]; simpl; [congruence|].
  destruct (is_ws c); [exact IH | reflexivity].
Qed.

Lemma all_ws_rev (s : jsstring) : all_ws (rev s) = all_ws s.
Proof.
  unfold all_ws. induction s as [|c s IH]; simpl; [reflexivity|].
  rewrite forallb_app, IH. simpl. rewrite andb_true_r. apply andb_comm.
Qed.

Lemma trimEnd_app_ws (s b : jsstring) :
  all_ws b = true -> trimEnd (s ++ b) = trimEnd s.
Proof.
  intros H. unfold trimEnd. rewrite rev_app_distr, trimStart_ws_app;
    [reflexivity | now rewrite all_ws_rev].
Qed.

Lemma trimEnd_split (s : jsstring) :
  exists b, all_ws b = true /\ s = trimEnd s ++ b.
Proof.
  destruct (trimStart_split (rev s)) as [a [Ha Hs]].
  exists (rev a). split; [now rewrite all_ws_rev|].
  unfold trimEnd. rewrite <- rev_app_distr, <- Hs. symmetry. apply rev_involutive.
Qed.

Lemma trimEnd_last (s : jsstring) (d : jschar) :
  trimEnd s <> [] -> is_ws (last (trimEnd s) d) = false.
Proof.
  unfold trimEnd. pose proof (trimStart_head (rev s)) as H.
  destruct (trimStart (rev s)) as [|c r]; [simpl; congruence|].
  intros _. simpl. now rewrite last_last.
Qed.

(** A string that starts with a character that is kept still starts with
    it after [trimEnd]. *)
Lemma trimEnd_keeps_head (c : jschar) (s : jsstring) :
  is_ws c = false -> exists r, trimEnd (c :: s) = c :: r.
Proof.
  intros Hc. destruct (trimEnd_split (c :: s)) as [b [Hb Hs]].
  destruct (trimEnd (c :: s)) as [|c' r] eqn:E.
  - simpl in Hs. subst b. simpl in Hb. rewrite Hc in Hb. discriminate.
  - simpl in Hs. injection Hs as -> _. now exists r.
Qed.

Lemma trim_stripped (s : jsstring) : stripped_of s (trim s).
Proof.
  unfold trim. destruct (trimStart_split s) as [a [Ha Hs]].
  destruct (trimEnd_split (trimStart s)) as [b [Hb Ht]].
  split.
  - exists a, b. repeat split; try assumption.
    rewrite <- Ht. exact Hs.
  - pose proof (trimStart_head s) as Hh.
    destruct (trimStart s) as [|c r] eqn:E; [exact I|].
    destruct (trimEnd_keeps_head c r Hh) as [r' Hr'].
    pose proof (trimEnd_last (c :: r) c) as Hl.
    rewrite Hr' in *. split; [exact Hh|]. apply Hl. discriminate.
Qed.

Lemma trim_blank (s : jsstring) : falsy (trim s) = true <-> all_ws s = true.
Proof.
  unfold trim. split.
  - intros H. apply trimStart_all_ws.
    pose proof (trimStart_head s) as Hh.
    destruct (trimStart s) as [|c r]; [reflexivity|].
    destruct (trimEnd_keeps_head c r Hh) as [r' Hr']. rewrite Hr' in H.
    discriminate.
  - intros H. apply trimStart_all_ws in H. rewrite H. reflexivity.
Qed.

Lemma trim_pad (a s b : jsstring) :
  all_ws a = true -> all_ws b = true -> trim (a ++ s ++ b) = trim s.
Proof.
  intros Ha Hb. unfold trim. rewrite (trimStart_ws_app a _ Ha).
  destruct (trimStart s) as [|c r] eqn:E.
  - apply trimStart_all_ws in E.
    assert (H : all_ws (s ++ b) = true)
      by (unfold all_ws in *; now rewrite forallb_app, E, Hb).
    apply trimStart_all_ws in H. now rewrite H.
  - rewrite trimStart_app_keep by (rewrite E; discriminate).
    rewrite E. now apply trimEnd_app_ws.
Qed.

(** ** Decimal numerals *)

Lemma is_digit_char (d : Z) : 0 <= d < 10 -> is_digit (digit_char d) = true.
Proof.
  intros H. unfold is_digit, digit_char.
  apply andb_true_intro. split; apply N.leb_le; lia.
Qed.

Lemma read_digit_char (d : Z) :
  0 <= d < 10 -> read_digit (digit_char d) = Some d.
Proof.
  intros H. unfold read_digit. rewrite is_digit_char by assumption.
  unfold digit_char. f_equal. lia.
Qed.

Lemma read_dec_acc_snoc (s : jsstring) (c : jschar) (acc : Z) :
  read_dec_acc acc (s ++ [c]) =
  match read_dec_acc acc s, read_digit c with
  | Some v, Some d => Some (10 * v + d)
  | _, _ => None
  end.
Proof.
  revert acc. induction s as [|x s IH]; intros acc; simpl.
  - destruct (read_digit c); reflexivity.
  - destruct (read_digit x); [apply IH | reflexivity].
Qed.

Lemma dec_digits_small (fuel : nat) (n : Z) :
  n < 10 -> dec_digits (S fuel) n = [digit_char n].
Proof.
  intros H. simpl. apply Z.ltb_lt in H. now rewrite H.
Qed.

Lemma dec_digits_big (fuel : nat) (n : Z) :
  10 <= n ->
  dec_digits (S fuel) n = dec_digits fuel (n / 10) ++ [digit_char (n mod 10)].
Proof.
  intros H. simpl. apply Z.ltb_ge in H. now rewrite H.
Qed.

Lemma tenth_bound (fuel : nat) (n : Z) :
  0 <= n < 2 ^ Z.of_nat (S fuel) -> 0 <= n / 10 < 2 ^ Z.of_nat fuel.
Proof.
  intros [H0 H1]. rewrite Nat2Z.inj_succ, Z.pow_succ_r in H1 by lia.
  split; [apply Z.div_pos; lia|].
  apply Z.div_lt_upper_bound; lia.
Qed.

Lemma read_dec_digits (fuel : nat) (n : Z) :
  0 <= n < 2 ^ Z.of_nat fuel -> read_dec_acc 0 (dec_digits fuel n) = Some n.
Proof.
  revert n. induction fuel as [|f IH]; intros n H.
  - simpl in *. f_equal. lia.
  - destruct (Z.lt_ge_cases n 10) as [Hs|Hb].
    + rewrite dec_digits_small by assumption. simpl.
      rewrite read_digit_char by lia. f_equal; lia.
    + rewrite dec_digits_big by assumption.
      rewrite read_dec_acc_snoc, (IH (n / 10) (tenth_bound f n H)).
      rewrite read_digit_char by (apply Z.mod_pos_bound; lia).
      f_equal. pose proof (Z.div_mod n 10). lia.
Qed.

Lemma dec_digits_are_digits (fuel : nat) (n : Z) :
  0 <= n -> forallb is_digit (dec_digits fuel n) = true.
Proof.
  revert n. induction fuel as [|f IH]; intros n H; [reflexivity|].
  destruct (Z.lt_ge_cases n 10) as [Hs|Hb].
  - rewrite dec_digits_small by assumption. cbn [forallb].
    rewrite is_digit_char by lia. reflexivity.
  - rewrite dec_digits_big by assumption. rewrite forallb_app, IH.
    + cbn [forallb andb]. rewrite is_digit_char; [reflexivity | apply Z.mod_pos_bound; lia].
    + apply Z.div_pos; lia.
Qed.

Lemma dec_fuel_enough (n : Z) : 0 <= n -> 0 <= n < 2 ^ Z.of_nat (dec_fuel n).
Proof.
  intros H. split; [exact H|]. unfold dec_fuel.
  rewrite Nat2Z.inj_succ, Z2Nat.id by apply Z.log2_nonneg.
  destruct (Z.eq_dec n 0) as [->|Hn]; [reflexivity|].
  apply Z.log2_spec. lia.
Qed.

Lemma toString_nonneg (n : Z) :
  0 <= n -> toString n = dec_digits (dec_fuel n) n.
Proof.
  intros H. unfold toString. apply Z.ltb_ge in H. now rewrite H.
Qed.

Lemma toString_one_digit (n : Z) :
  0 <= n < 10 -> toString n = [digit_char n].
Proof.
  intros H. rewrite toString_nonneg by lia. apply dec_digits_small. lia.
Qed.

Lemma toString_two_digits (n : Z) :
  10 <= n < 100 -> toString n = two_digits n.
Proof.
  intros H. rewrite toString_nonneg by lia. unfold dec_fuel.
  assert (Hl : 3 <= Z.log2 n) by (apply Z.log2_le_pow2; simpl; lia).
  destruct (Z.to_nat (Z.log2 n)) as [|k] eqn:E; [lia|].
  rewrite dec_digits_big by lia.
  rewrite dec_digits_small by (apply Z.div_lt_upper_bound; lia).
  reflexivity.
Qed.

Lemma toString_long (n : Z) : 10 <= n -> (2 <= length (toString n))%nat.
Proof.
  intros H. rewrite toString_nonneg by lia. unfold dec_fuel.
  assert (Hl : 3 <= Z.log2 n) by (apply Z.log2_le_pow2; simpl; lia).
  destruct (Z.to_nat (Z.log2 n)) as [|k] eqn:E; [lia|].
  rewrite dec_digits_big by lia. rewrite length_app. cbn [length].
  destruct (Z.lt_ge_cases (n / 10) 10) as [Hs|Hb].
  - rewrite dec_digits_small by assumption. cbn [length]. lia.
  - rewrite dec_digits_big by assumption. rewrite length_app. cbn [length]. lia.
Qed.

(** Padding a non-negative numeral to width 2 gives the stated field. *)
Lemma padStart_toString (n : Z) :
  0 <= n -> padStart 2 48%N (toString n) = zero_padded2 n.
Proof.
  intros H. unfold padStart, zero_padded2.
  destruct (Z.lt_ge_cases n 10) as [Hs|Hb].
  - rewrite toString_one_digit by lia.
    replace (n <? 100) with true by (symmetry; apply Z.ltb_lt; lia).
    simpl. unfold two_digits.
    rewrite Z.div_small, Z.mod_small by lia. reflexivity.
  - pose proof (toString_long n Hb) as Hl.
    replace (2 - length (toString n))%nat with 0%nat by lia. simpl.
    destruct (n <? 100) eqn:E; [|reflexivity].
    apply Z.ltb_lt in E. apply toString_two_digits. lia.
Qed.

Lemma read_dec_toString (n : Z) : 0 <= n -> read_dec (toString n) = Some n.
Proof.
  intros H. rewrite toString_nonneg by assumption.
  pose proof (read_dec_digits _ _ (dec_fuel_enough n H)) as R.
  unfold dec_fuel in *. unfold read_dec.
  destruct (dec_digits (S (Z.to_nat (Z.log2 n))) n) eqn:E; [|exact R].
  simpl in E. destruct (n <? 10); [discriminate|].
  now destruct (dec_digits (Z.to_nat (Z.log2 n)) (n / 10)).
Qed.

Lemma read_dec_two_digits (n : Z) :
  0 <= n < 100 -> read_dec (two_digits n) = Some n.
Proof.
  intros H. unfold two_digits, read_dec, read_dec_acc.
  rewrite !read_digit_char.
  - f_equal. pose proof (Z.div_mod n 10). lia.
  - apply Z.mod_pos_bound; lia.
  - split; [apply Z.div_pos; lia | apply Z.div_lt_upper_bound; lia].
Qed.

Lemma read_dec_zero_padded2 (n : Z) :
  0 <= n -> read_dec (zero_padded2 n) = Some n.
Proof.
  intros H. unfold zero_padded2. destruct (n <? 100) eqn:E.
  - apply Z.ltb_lt in E. apply read_dec_two_digits. lia.
  - now apply read_dec_toString.
Qed.

Lemma zero_padded2_digits (n : Z) :
  0 <= n -> forallb is_digit (zero_padded2 n) = true.
Proof.
  intros H. unfold zero_padded2. destruct (n <? 100) eqn:E.
  - apply Z.ltb_lt in E. unfold two_digits. simpl.
    rewrite !is_digit_char; [reflexivity | apply Z.mod_pos_bound; lia |].
    split; [apply Z.div_pos; lia | apply Z.div_lt_upper_bound; lia].
  - rewrite toString_nonneg by assumption. now apply dec_digits_are_digits.
Qed.

Lemma split_colon_digits (m x : jsstring) :
  forallb is_digit m = true -> split_colon (m ++ lit ":" ++ x) = Some (m, x).
Proof.
  induction m as [|c m IH]; intros H; [reflexivity|].
  simpl in H. apply andb_prop in H as [Hc Hm].
  change ((c :: m) ++ lit ":" ++ x) with (c :: (m ++ lit ":" ++ x)).
  cbn [split_colon]. rewrite (IH Hm).
  replace (c =? 58)%N with false; [reflexivity|].
  symmetry. apply N.eqb_neq. unfold is_digit in Hc.
  apply andb_prop in Hc as [_ Hc]. apply N.leb_le in Hc. lia.
Qed.

Lemma read_timer_MMSS (e : Z) : 0 <= e -> read_timer (MMSS e) = Some e.
Proof.
  intros H. unfold read_timer, MMSS.
  assert (Hm : 0 <= e / 60) by (apply Z.div_pos; lia).
  assert (Hs : 0 <= e mod 60 < 60) by (apply Z.mod_pos_bound; lia).
  rewrite split_colon_digits by now apply zero_padded2_digits.
  rewrite !read_dec_zero_padded2 by lia.
  f_equal. pose proof (Z.div_mod e 60). lia.
Qed.

(** ** The recording timer *)

Lemma timer_text_MMSS (s t : Z) :
  s <= t -> timer_text (Some s) t = MMSS ((t - s) / 1000).
Proof.
  intros H. unfold timer_text, floor_div, js_rem, MMSS.
  assert (He : 0 <= (t - s) / 1000) by (apply Z.div_pos; lia).
  rewrite Z.rem_mod_nonneg by lia.
  rewrite !padStart_toString; [reflexivity | | apply Z.div_pos; lia].
  apply Z.mod_pos_bound. lia.
Qed.


(** ** Rendering results *)

(** C7: rendering shows the English and ISL texts when present (a non-empty
    string) and the literal fallbacks when missing (absent or empty); a
    present video path sets the media source to /static/ joined with it and
    reloads the media element, an absent one clears the media source and
    loads nothing. *)
Theorem displayResults_renders (data : ResultPayload) (st : State) :
  let st' := displayResults data st in
  englishTextResult_text (resUI st') =
    match english_text data with
    | Some (c :: r) => c :: r
    | Some [] | None => lit "No text recognized"
    end /\
  islTextResult_text (resUI st') =
    match isl_text data with
    | Some (c :: r) => c :: r
    | Some [] | None => lit "No ISL conversion available"
    end /\
  match video_path data with
  | Some (c :: r) =>
      islVideo_src (resUI st') = lit "/static/" ++ c :: r /\
      log st' = log st ++ [EVideoLoad; EScrollIntoView]
  | Some [] | None =>
      islVideo_src (resUI st') = [] /\
      log st' = log st ++ [EScrollIntoView]
  end /\
  islVideo_src (resUI (displayResults
     {| status := Some (lit "success"); english_text := Some [];
        isl_text := Some []; video_path := Some (lit "signs/hello.mp4") |} st))
  = lit "/static/signs/hello.mp4".
Proof.
  destruct data as [s e i v].
  destruct e as [[|ce re]|], i as [[|ci ri]|], v as [[|cv rv]|];
    cbn; rewrite <- ?app_assoc; repeat split; reflexivity.
Qed.

(** C8: rendering the same payload twice in succession leaves the state a
    single rendering leaves: result texts, media source and results-region
    visibility, and everything else on the page. *)
Theorem displayResults_idempotent (data : ResultPayload) (st : State) :
  let once := displayResults data st in
  let twice := displayResults data (displayResults data st) in
  resUI twice = resUI once /\
  recUI twice = recUI once /\
  loadingOverlay_dnone twice = loadingOverlay_dnone once /\
  audioChunks twice = audioChunks once /\
  fetches twice = fetches once.
Proof.
  unfold displayResults, andThen.
  destruct (truthy (video_path data)); cbn; repeat split.
Qed.

Lemma displayResults_reveals (data : ResultPayload) (st : State) :
  resultsSection_dnone (resUI (displayResults data st)) = false.
Proof.
  unfold displayResults. destruct (truthy (video_path data)); reflexivity.
Qed.

(** C9: across every sequence of render calls the results region, once
    revealed, stays revealed; and every render call reveals it. *)
Theorem results_region_stays_revealed
    (before after : list ResultPayload) (st : State) :
  resultsSection_dnone (resUI (renders before st)) = false ->
  resultsSection_dnone (resUI (renders (before ++ after) st)) = false /\
  (forall d, resultsSection_dnone (resUI (renders (before ++ d :: after) st)) = false).
Proof.
  assert (K : forall ds s, resultsSection_dnone (resUI s) = false ->
                           resultsSection_dnone (resUI (renders ds s)) = false).
  { induction ds as [|d ds IH]; intros s H; [exact H|].
    apply IH, displayResults_reveals. }
  intros H. unfold renders in *. split.
  - rewrite fold_left_app. now apply K.
  - intros d. rewrite fold_left_app. cbn [fold_left].
    apply K, displayResults_reveals.
Qed.

(** X17: no handler of the page hides the results region either: once
    revealed it stays revealed through every event. *)
Lemma results_region_never_hidden (st st' : State) (e : Event) :
  step st e = Some st' ->
  resultsSection_dnone (resUI st) = false ->
  resultsSection_dnone (resUI st') = false.
Proof.
  intros H V. destruct e as [value|[f|]| |t0 t1| | |rid data|rid|iid now|fid o].
  - cbn in H. injection H as <-. unfold handleTextSubmit, andThen.
    destruct (falsy (trim value)); exact V.
  - cbn in H. injection H as <-. exact V.
  - cbn in H. injection H as <-. exact V.
  - cbn in H. destruct (startBtn_dnone (recUI st)); [discriminate H|].
    injection H as <-. exact V.
  - cbn in H. destruct (pendingPermissions st); [discriminate H|].
    injection H as <-. exact V.
  - cbn in H. destruct (pendingPermissions st); [discriminate H|].
    injection H as <-. exact V.
  - unfold step, stopRecording in H.
    destruct (stopBtn_dnone (recUI st)); [discriminate H|]. injection H as <-.
    destruct (mediaRecorder st) as [rid|]; [|exact V].
    destruct (recorder_state st rid) as [[]|]; exact V.
  - cbn in H. destruct (capturing _); [|discriminate H].
    injection H as <-. exact V.
  - cbn in H. destruct (capturing _); [|discriminate H]. injection H as <-.
    unfold on_stop, clearInterval, andThen.
    destruct (recordingTimerInterval _); exact V.
  - cbn in H. destruct (existsb _ _); [|discriminate H].
    injection H as <-. exact V.
  - cbn in H. destruct (pending_variant fid (fetches st)) as [v|];
      [|discriminate H]. injection H as <-.
    destruct v, o as [| |[|data]]; cbn;
      try destruct (is_success data); cbn;
      unfold displayResults, andThen;
      try destruct (truthy (video_path data)); cbn; try exact V; reflexivity.
Qed.

Lemma results_region_stays_revealed_witness :
  let p := {| status := Some (lit "success"); english_text := Some (lit "hello");
              isl_text := None; video_path := None |} in
  let q := {| status := Some (lit "success"); english_text := None;
              isl_text := None; video_path := None |} in
  resultsSection_dnone (resUI (renders ([p] ++ [q; q]) page_loaded)) = false.
Proof.
  intros p q.
  exact (proj1 (results_region_stays_revealed [p] [q; q] page_loaded eq_refl)).
Defined.

(** ** Submitting *)

Lemma requests_app (a b : list Effect) :
  requests (a ++ b) = requests a ++ requests b.
Proof. apply flat_map_app. Qed.

Lemma toasts_app (a b : list Effect) : toasts (a ++ b) = toasts a ++ toasts b.
Proof. apply flat_map_app. Qed.

Lemma hides_app (a b : list Effect) : hides (a ++ b) = (hides a + hides b)%nat.
Proof. unfold hides. now rewrite filter_app, length_app. Qed.

(** Splits the counts over a log into the part already there and the part
    a handler added, and evaluates the latter. *)
Ltac log_norm :=
  cbn; rewrite ?requests_app, ?toasts_app, ?hides_app;
  unfold requests, toasts, hides; cbn; rewrite ?app_nil_r.

Lemma handleTextSubmit_blank (value : jsstring) (st : State) :
  all_ws value = true -> handleTextSubmit value st = emit EPreventDefault st.
Proof.
  intros H. apply trim_blank in H. unfold handleTextSubmit, andThen.
  now rewrite H.
Qed.

Lemma handleTextSubmit_sends (value : jsstring) (st : State) :
  falsy (trim value) = false ->
  handleTextSubmit value st =
  (emit EPreventDefault ;; showLoading ;;
   fetch TextSubmission (lit "/process_text")
         [(lit "text", FText (to_usv (trim value)))]) st.
Proof.
  intros H. unfold handleTextSubmit, andThen. now rewrite H.
Qed.

Lemma ws_not_surrogate (c : jschar) :
  is_ws c = true -> is_high c = false /\ is_low c = false.
Proof.
  unfold is_ws, is_high, is_low. intros H.
  repeat (apply orb_prop in H; destruct H as [H|H]);
    repeat match goal with
           | K : (_ && _)%bool = true |- _ => apply andb_prop in K; destruct K
           | K : (_ <=? _)%N = true |- _ => apply N.leb_le in K
           | K : (_ =? _)%N = true |- _ => apply N.eqb_eq in K
           end;
    split; apply andb_false_iff;
    ((left; apply N.leb_gt; lia) || (right; apply N.leb_gt; lia)).
Qed.

Lemma well_formed_drop_ws (a s : jsstring) :
  all_ws a = true -> well_formed (a ++ s) = true -> well_formed s = true.
Proof.
  induction a as [|c a IH]; intros W H; [exact H|].
  cbn in W. apply andb_prop in W as [Wc Wa].
  destruct (ws_not_surrogate c Wc) as [Hh Hl].
  cbn in H. rewrite Hh, Hl in H. cbn in H. now apply IH.
Qed.

Lemma well_formed_drop_ws_end (n : nat) (s b : jsstring) :
  (length s <= n)%nat ->
  all_ws b = true -> well_formed (s ++ b) = true -> well_formed s = true.
Proof.
  revert s. induction n as [|n IH]; intros s L W H.
  - destruct s; [reflexivity | cbn in L; lia].
  - destruct s as [|c r]; [reflexivity|]. cbn in L. cbn in H |- *.
    destruct (is_high c).
    + destruct r as [|d r'].
      * destruct b as [|x b]; [discriminate H|]. cbn in H, W.
        apply andb_prop in W as [Wx _].
        destruct (ws_not_surrogate x Wx) as [_ Hl]. rewrite Hl in H.
        discriminate H.
      * cbn in H, L. apply andb_prop in H as [Hd H]. rewrite Hd. cbn.
        apply (IH r'); [lia | exact W | exact H].
    + apply andb_prop in H as [Hc H]. rewrite Hc. cbn.
      apply (IH r); [lia | exact W | exact H].
Qed.

Lemma to_usv_well_formed (n : nat) (s : jsstring) :
  (length s <= n)%nat -> well_formed s = true -> to_usv s = s.
Proof.
  revert s. induction n as [|n IH]; intros s L H.
  - destruct s; [reflexivity | cbn in L; lia].
  - destruct s as [|c r]; [reflexivity|]. cbn in L. cbn in H |- *.
    destruct (is_high c).
    + destruct r as [|d r']; [discriminate H|]. cbn in L.
      apply andb_prop in H as [Hd H]. rewrite Hd.
      rewrite (IH r'); [reflexivity | lia | exact H].
    + apply andb_prop in H as [Hc H]. apply negb_true_iff in Hc. rewrite Hc.
      rewrite (IH r); [reflexivity | lia | exact H].
Qed.

Lemma trim_well_formed (s : jsstring) :
  well_formed s = true -> to_usv (trim s) = trim s.
Proof.
  intros H. destruct (trim_stripped s) as [[a [b [Ha [Hb E]]]] _].
  apply (to_usv_well_formed (length (trim s))); [lia|].
  rewrite E in H. apply well_formed_drop_ws in H; [|exact Ha].
  apply (well_formed_drop_ws_end (length (trim s)) _ b); [lia | exact Hb | exact H].
Qed.

(** The field sent for an input with an unpaired surrogate is not the
    trimmed input: the surrogate has become U+FFFD. *)
Lemma text_field_replaces_lone_surrogate :
  let value := [32; 97; 55296; 98; 32]%N in
  trim value = [97; 55296; 98]%N /\
  requests (log (handleTextSubmit value page_loaded)) =
    [{| req_url := lit "/process_text"; req_method := lit "POST";
        req_body := [(lit "text", FText [97; 65533; 98]%N)] |}] /\
  requests (log (handleTextSubmit value page_loaded)) <>
    [{| req_url := lit "/process_text"; req_method := lit "POST";
        req_body := [(lit "text", FText (trim value))] |}].
Proof.
  intros value. split; [reflexivity|]. split; [reflexivity|].
  intros H. vm_compute in H. discriminate H.
Qed.

(** C10 (as the script has it): a text submission that issues a request
    sends, as field [text], the input without its leading and trailing
    whitespace and with every unpaired surrogate replaced by U+FFFD, which
    for an input without unpaired surrogates is the trimmed input itself;
    inputs that differ only in leading and trailing whitespace issue the
    same request and leave the same state. *)
Theorem text_field_is_trimmed (value l r : jsstring) (st : State) :
  falsy (trim value) = false -> all_ws l = true -> all_ws r = true ->
  requests (log (handleTextSubmit value st)) =
    requests (log st) ++
    [{| req_url := lit "/process_text"; req_method := lit "POST";
        req_body := [(lit "text", FText (to_usv (trim value)))] |}] /\
  stripped_of value (trim value) /\
  (well_formed value = true -> to_usv (trim value) = trim value) /\
  handleTextSubmit (l ++ value ++ r) st = handleTextSubmit value st.
Proof.
  intros Hv Hl Hr. repeat split.
  - rewrite handleTextSubmit_sends by assumption. now log_norm.
  - apply trim_stripped.
  - apply trim_stripped.
  - apply trim_well_formed.
  - unfold handleTextSubmit. now rewrite trim_pad.
Qed.

Lemma text_field_is_trimmed_witness :
  requests (log (handleTextSubmit (lit "  good morning ") page_loaded)) =
    [{| req_url := lit "/process_text"; req_method := lit "POST";
        req_body := [(lit "text", FText (lit "good morning"))] |}] /\
  handleTextSubmit (lit " " ++ lit "  good morning " ++ lit "  ") page_loaded
  = handleTextSubmit (lit "  good morning ") page_loaded.
Proof.
  pose proof (text_field_is_trimmed (lit "  good morning ") (lit " ") (lit "  ")
                page_loaded eq_refl eq_refl eq_refl) as [H1 [_ [_ H3]]].
  split; [exact H1 | exact H3].
Defined.

(** C6: submitting blank text (empty or whitespace only) or the file form
    without a file only cancels the form's default action: no request, no
    notification, and the loading overlay, the rendered results, the
    recording controls and the pending requests stay as they were. *)
Theorem empty_input_ignored (value : jsstring) (st : State) :
  all_ws value = true ->
  forall st', st' = handleTextSubmit value st \/
              st' = handleAudioUploadSubmit None st ->
  log st' = log st ++ [EPreventDefault] /\
  requests (log st') = requests (log st) /\
  toasts (log st') = toasts (log st) /\
  loadingOverlay_dnone st' = loadingOverlay_dnone st /\
  resUI st' = resUI st /\
  recUI st' = recUI st /\
  fetches st' = fetches st.
Proof.
  intros H st' E.
  assert (E' : st' = emit EPreventDefault st).
  { destruct E as [-> | ->]; [now apply handleTextSubmit_blank | reflexivity]. }
  subst st'. log_norm. repeat split.
Qed.

Lemma empty_input_ignored_witness :
  requests (log (handleTextSubmit (lit "   ") page_loaded)) = [] /\
  toasts (log (handleTextSubmit (lit "   ") page_loaded)) = [] /\
  requests (log (handleAudioUploadSubmit None page_loaded)) = [] /\
  toasts (log (handleAudioUploadSubmit None page_loaded)) = [].
Proof.
  pose proof (empty_input_ignored (lit "   ") page_loaded eq_refl) as H.
  destruct (H _ (or_introl eq_refl)) as [_ [R1 [T1 _]]].
  destruct (H _ (or_intror eq_refl)) as [_ [R2 [T2 _]]].
  repeat split; assumption.
Defined.

(** C4: each variant goes to its own route under its own multipart field:
    text to /process_text as [text], a file to /process_audio as [audio],
    a recording to /record_audio as [audio] holding a blob of type
    audio/webm whose bytes are the chunks one after the other. *)
Theorem fixed_route_per_variant
    (value : jsstring) (audioFile : File) (rid : nat) (st : State) :
  falsy (trim value) = false ->
  requests (log (handleTextSubmit value st)) =
    requests (log st) ++
    [{| req_url := lit "/process_text"; req_method := lit "POST";
        req_body := [(lit "text", FText (to_usv (trim value)))] |}] /\
  requests (log (handleAudioUploadSubmit (Some audioFile) st)) =
    requests (log st) ++
    [{| req_url := lit "/process_audio"; req_method := lit "POST";
        req_body := [(lit "audio", FFile audioFile)] |}] /\
  requests (log (on_stop rid st)) =
    requests (log st) ++
    [{| req_url := lit "/record_audio"; req_method := lit "POST";
        req_body :=
          [(lit "audio",
            FBlob {| blob_bytes := concat (map blob_bytes (audioChunks st));
                     blob_type := lit "audio/webm" |})] |}].
Proof.
  intros Hv. repeat split.
  - rewrite handleTextSubmit_sends by assumption. now log_norm.
  - now log_norm.
  - unfold on_stop, clearInterval, andThen.
    destruct (recordingTimerInterval st); now log_norm.
Qed.

Lemma fixed_route_per_variant_witness :
  let chunk b := {| blob_bytes := b; blob_type := [] |} in
  let st := set_audioChunks [chunk [Byte.x01; Byte.x02]; chunk [Byte.x03]]
                            page_loaded in
  requests (log (on_stop 0 st)) =
    [{| req_url := lit "/record_audio"; req_method := lit "POST";
        req_body :=
          [(lit "audio",
            FBlob {| blob_bytes := [Byte.x01; Byte.x02; Byte.x03];
                     blob_type := lit "audio/webm" |})] |}].
Proof.
  intros chunk st.
  exact (proj2 (proj2 (fixed_route_per_variant (lit "hello")
                         {| file_name := lit "a.wav"; file_content := chunk [] |}
                         0 st eq_refl))).
Defined.

(** ** The loading overlay around one submission *)

Ltac step_cases H :=
  repeat match type of H with
         | context [match ?x with _ => _ end] => destruct x eqn:?
         end;
  try discriminate H; injection H as <-.

Lemma quiet_step (st st' : State) (e : Event) :
  quiet e = true -> step st e = Some st' ->
  loadingOverlay_dnone st' = loadingOverlay_dnone st /\
  fetches st' = fetches st /\
  fetchesCreated st' = fetchesCreated st /\
  hides (log st') = hides (log st).
Proof.
  intros Q H. destruct e as [value|[f|]| |t0 t1| | |rid data|rid|iid now|fid o];
    cbn in Q; try discriminate Q.
  - cbn in H. injection H as <-. unfold handleTextSubmit, andThen.
    destruct (falsy (trim value)); [|discriminate Q].
    log_norm. repeat split; lia.
  - cbn in H. injection H as <-. log_norm. repeat split; lia.
  - cbn in H. step_cases H. log_norm. repeat split; lia.
  - cbn in H. step_cases H. cbn. repeat split.
  - cbn in H. step_cases H. log_norm. repeat split; lia.
  - unfold step, stopRecording in H. step_cases H; cbn; repeat split.
  - cbn in H. step_cases H; cbn; repeat split.
  - cbn in H. step_cases H. cbn. repeat split.
Qed.

Lemma quiet_run (qs : list Event) (st st' : State) :
  forallb quiet qs = true -> run st qs = Some st' ->
  loadingOverlay_dnone st' = loadingOverlay_dnone st /\
  fetches st' = fetches st /\
  fetchesCreated st' = fetchesCreated st /\
  hides (log st') = hides (log st).
Proof.
  revert st. induction qs as [|q qs IH]; intros st Q H.
  - injection H as <-. repeat split.
  - cbn in Q, H. apply andb_prop in Q as [Qq Qs].
    destruct (step st q) as [s1|] eqn:E; [|discriminate H].
    destruct (quiet_step _ _ _ Qq E) as [A [B [C D]]].
    destruct (IH _ Qs H) as [A' [B' [C' D']]].
    repeat split; congruence.
Qed.

Lemma dispatch_shows_loading (st st1 : State) (e : Event) (v : Variant) :
  submits e = Some v -> step st e = Some st1 ->
  (exists pre r, log st1 = log st ++ pre ++ [EShowLoading; EFetch r] /\
                 requests pre = [] /\ hides pre = 0%nat) /\
  loadingOverlay_dnone st1 = false /\
  fetches st1 = fetches st ++ [(fetchesCreated st, v)].
Proof.
  intros S H. destruct e as [value|[f|]| |t0 t1| | |rid data|rid|iid now|fid o];
    cbn in S; try discriminate S.
  - destruct (falsy (trim value)) eqn:F; [discriminate S|]. injection S as <-.
    cbn in H. injection H as <-. rewrite handleTextSubmit_sends by assumption.
    cbn. split; [|split; reflexivity].
    eexists [EPreventDefault], _. rewrite <- !app_assoc. repeat split.
  - injection S as <-. cbn in H. injection H as <-.
    cbn. split; [|split; reflexivity].
    eexists [EPreventDefault], _. rewrite <- !app_assoc. repeat split.
  - injection S as <-. cbn in H. step_cases H.
    unfold on_stop, clearInterval, andThen.
    destruct (recordingTimerInterval _); cbn; (split; [|split; reflexivity]);
      eexists [], _; rewrite <- !app_assoc; repeat split.
Qed.

Lemma settle_hides_loading (v : Variant) (o : Settlement) (st : State) :
  loadingOverlay_dnone (settle v o st) = true /\
  fetches (settle v o st) = fetches st /\
  hides (log (settle v o st)) =
    (hides (log st) + match branch_of o with Some _ => 1 | None => 2 end)%nat.
Proof.
  destruct v, o as [| |[|data]]; cbn;
    try destruct (is_success data); cbn;
    unfold displayResults, andThen;
    try destruct (truthy (video_path data)); log_norm; repeat split; lia.
Qed.

(** A submission of any variant that starts with the overlay hidden and
    nothing in flight shows the overlay before its request leaves; nothing
    but its settlement hides it; when it settles the overlay is hidden
    again, by one call of [hideLoading] in each of the branches success,
    non-success status and transport failure, and by two when the body
    parses to [null]. *)
Theorem loading_brackets_submission
    (st st1 st2 : State) (e : Event) (v : Variant) (qs : list Event)
    (o : Settlement) :
  loadingOverlay_dnone st = true -> fetches st = [] ->
  submits e = Some v -> step st e = Some st1 ->
  forallb quiet qs = true -> run st1 qs = Some st2 ->
  (exists pre r, log st1 = log st ++ pre ++ [EShowLoading; EFetch r] /\
                 requests pre = [] /\ hides pre = 0%nat) /\
  loadingOverlay_dnone st1 = false /\
  loadingOverlay_dnone st2 = false /\
  hides (log st2) = hides (log st) /\
  exists st3,
    step st2 (Settled (fetchesCreated st) o) = Some st3 /\
    loadingOverlay_dnone st3 = true /\
    fetches st3 = [] /\
    hides (log st3) =
      (hides (log st) + match branch_of o with Some _ => 1 | None => 2 end)%nat.
Proof.
  intros L F S H Q R.
  destruct (dispatch_shows_loading _ _ _ _ S H) as [[pre [r [Hl [Hr Hh]]]] [L1 F1]].
  destruct (quiet_run _ _ _ Q R) as [L2 [F2 [_ H2]]].
  assert (H1 : hides (log st1) = hides (log st)).
  { rewrite Hl, !hides_app, Hh. unfold hides. cbn. lia. }
  split; [now exists pre, r|]. repeat split; try congruence.
  rewrite F in F1. cbn in F1.
  destruct (settle_hides_loading v o (remove_fetch (fetchesCreated st) st2))
    as [A [B C]].
  exists (settle v o (remove_fetch (fetchesCreated st) st2)).
  split; [|split; [exact A|split]].
  - cbn. rewrite F2, F1. cbn. now rewrite Nat.eqb_refl.
  - rewrite B. cbn. rewrite F2, F1. cbn. now rewrite Nat.eqb_refl.
  - rewrite C. cbn. congruence.
Qed.

Lemma loading_brackets_submission_witness :
  let o := Body (JObject {| status := Some (lit "failed");
                            english_text := None; isl_text := None;
                            video_path := None |}) in
  let st1 := after [SubmitText (lit "hi")] in
  let st2 := after [SubmitText (lit "hi"); ClickStart] in
  loadingOverlay_dnone st1 = false /\
  exists st3, step st2 (Settled 0 o) = Some st3 /\
              loadingOverlay_dnone st3 = true /\ hides (log st3) = 1%nat.
Proof.
  intros o st1 st2.
  assert (H4 : step page_loaded (SubmitText (lit "hi")) = Some st1)
    by (vm_compute; reflexivity).
  assert (H6 : run st1 [ClickStart] = Some st2) by (vm_compute; reflexivity).
  destruct (loading_brackets_submission
              page_loaded st1 st2 (SubmitText (lit "hi")) TextSubmission
              [ClickStart] o eq_refl eq_refl eq_refl H4 eq_refl H6)
    as [_ [L1 [_ [_ [st3 [E [L [_ Hh]]]]]]]].
  split; [exact L1|]. exists st3. repeat split; assumption.
Defined.

(** A body that parses to [null] is hidden twice: once by the data handler
    before it faults on the status, once by the failure handler. *)
Lemma null_body_hides_twice (v : Variant) (st : State) :
  hides (log (settle v (Body JNull) st)) = (hides (log st) + 2)%nat.
Proof. apply settle_hides_loading. Qed.

(** ** Stopping a recording *)

Lemma on_stop_keeps_controls (rid : nat) (st : State) :
  recUI (on_stop rid st) = recUI st /\
  exists r, log (on_stop rid st) = log st ++ [EShowLoading; EFetch r].
Proof.
  unfold on_stop, clearInterval, andThen.
  destruct (recordingTimerInterval st); cbn; rewrite <- app_assoc;
    (split; [reflexivity | eexists; reflexivity]).
Qed.

Lemma settle_recording_resets (o : Settlement) (st : State) :
  idle_presentation (recUI (settle RecordingSubmission o st)).
Proof.
  unfold idle_presentation.
  destruct o as [| |[|data]]; cbn;
    try destruct (is_success data); cbn;
    unfold displayResults, andThen;
    try destruct (truthy (video_path data)); cbn; repeat split.
Qed.

(** The stop listener leaves the controls in their recording presentation
    while the upload is in flight. *)
Lemma stop_listener_does_not_reset :
  exists st,
    run page_loaded [ClickStart; PermissionGranted 0 0; ClickStop;
                     RecorderStopped 0] = Some st /\
    fetches st = [(0%nat, RecordingSubmission)] /\
    startBtn_dnone (recUI st) = true /\
    startBtn_recording (recUI st) = true /\
    stopBtn_dnone (recUI st) = false /\
    recordingTimer_dnone (recUI st) = false /\
    recordingStatus_text (recUI st) = lit "Processing audio..." /\
    ~ idle_presentation (recUI st).
Proof.
  eexists. split; [vm_compute; reflexivity|].
  vm_compute. repeat split. intros [H _]. discriminate H.
Qed.

Lemma recording_presentation_kept (st st' : State) (e : Event) :
  step st e = Some st' -> settles_recording st e = false ->
  recording_presentation (recUI st) -> recording_presentation (recUI st').
Proof.
  unfold recording_presentation.
  intros H N P. destruct e as [value|[f|]| |t0 t1| | |rid data|rid|iid now|fid o].
  - cbn in H. injection H as <-. unfold handleTextSubmit, andThen.
    destruct (falsy (trim value)); exact P.
  - cbn in H. injection H as <-. exact P.
  - cbn in H. injection H as <-. exact P.
  - cbn in H. destruct (startBtn_dnone (recUI st)); [discriminate H|].
    destruct P as [P _]. discriminate P.
  - cbn in H. destruct (pendingPermissions st); [discriminate H|].
    injection H as <-. cbn. repeat split.
  - cbn in H. destruct (pendingPermissions st); [discriminate H|].
    injection H as <-. exact P.
  - unfold step, stopRecording in H.
    destruct (stopBtn_dnone (recUI st)) eqn:B; [discriminate H|].
    injection H as <-.
    destruct (mediaRecorder st) as [rid|]; [|rewrite B; exact P].
    destruct (recorder_state st rid) as [[]|]; cbn; rewrite B; exact P.
  - cbn in H. destruct (capturing _); [|discriminate H].
    injection H as <-. exact P.
  - cbn in H. destruct (capturing _); [|discriminate H]. injection H as <-.
    unfold on_stop, clearInterval, andThen.
    destruct (recordingTimerInterval _); exact P.
  - cbn in H. destruct (existsb _ _); [|discriminate H].
    injection H as <-. exact P.
  - cbn in H, N. destruct (pending_variant fid (fetches st)) as [v|];
      [|discriminate H]. injection H as <-.
    destruct v; try discriminate N; destruct o as [| |[|data]]; cbn;
      try destruct (is_success data); cbn;
      unfold displayResults, andThen;
      try destruct (truthy (video_path data)); exact P.
Qed.

Lemma recording_presentation_run (es : list Event) (st st' : State) :
  run_unsettled st es = Some st' ->
  recording_presentation (recUI st) -> recording_presentation (recUI st').
Proof.
  revert st. induction es as [|e r IH]; intros st H P.
  - injection H as <-. exact P.
  - cbn in H. destruct (settles_recording st e) eqn:N; [discriminate H|].
    destruct (step st e) as [s1|] eqn:E; [|discriminate H].
    apply (IH s1 H). now apply (recording_presentation_kept st s1 e).
Qed.

(** C1 (as the script has it): the stop listener leaves the recording
    controls as they are and dispatches the upload; controls in the
    recording presentation (start hidden and highlighted, stop and timer
    shown) stay in it through every later event that is not the settlement
    of an upload of a recording; whenever an upload of a recording settles,
    in every outcome, the controls are reset to the idle presentation. *)
Theorem recording_controls_reset_at_settlement
    (st st1 st2 st3 : State) (rid fid : nat) (es : list Event)
    (o : Settlement) :
  step st (RecorderStopped rid) = Some st1 ->
  run_unsettled st1 es = Some st2 ->
  pending_variant fid (fetches st2) = Some RecordingSubmission ->
  step st2 (Settled fid o) = Some st3 ->
  recUI st1 = recUI st /\
  (exists r, log st1 = log st ++ [EShowLoading; EFetch r]) /\
  (recording_presentation (recUI st) -> recording_presentation (recUI st2)) /\
  idle_presentation (recUI st3).
Proof.
  intros H1 R P H3. cbn in H1, H3. rewrite P in H3. injection H3 as <-.
  destruct (capturing (recorder_state st rid)); [|discriminate H1].
  injection H1 as <-.
  destruct (on_stop_keeps_controls rid
              (set_recorders (set_rec_state rid RStopped (recorders st)) st))
    as [A B].
  split; [exact A|]. split; [exact B|]. split.
  - intros Q. apply (recording_presentation_run es _ _ R).
    unfold andThen. rewrite A. exact Q.
  - apply settle_recording_resets.
Qed.

Lemma recording_controls_reset_at_settlement_witness :
  let es := [ClickStart; PermissionGranted 0 0; ClickStop] in
  let between := [SubmitText (lit "hi"); Settled 1 NetworkError; ClickStop] in
  let st1 := after (es ++ [RecorderStopped 0]) in
  let st2 := after (es ++ [RecorderStopped 0] ++ between) in
  let st3 := after (es ++ [RecorderStopped 0] ++ between ++ [Settled 0 BodyNotJson]) in
  recUI st1 = recUI (after es) /\
  recording_presentation (recUI st2) /\
  idle_presentation (recUI st3).
Proof.
  intros es between st1 st2 st3.
  assert (H1 : step (after es) (RecorderStopped 0) = Some st1)
    by (vm_compute; reflexivity).
  assert (R : run_unsettled st1 between = Some st2)
    by (vm_compute; reflexivity).
  assert (H3 : step st2 (Settled 0 BodyNotJson) = Some st3)
    by (vm_compute; reflexivity).
  destruct (recording_controls_reset_at_settlement
              (after es) st1 st2 st3 0 0 between BodyNotJson H1 R eq_refl H3)
    as [A [_ [B C]]].
  split; [exact A|]. split; [|exact C].
  apply B. vm_compute. repeat split.
Defined.

(** ** Recording sessions *)

(** C2 (a run of the script against it): the start button is hidden only
    once permission is granted and [startRecording] checks no state, so a
    second click while the first request is pending yields two capturing
    sessions.  Stopping reaches only the second: the controls return to
    idle while the first session still captures, its track unreleased and
    its timer still registered. *)
Theorem second_start_while_permission_pending :
  exists st st',
    run page_loaded [ClickStart; ClickStart;
                     PermissionGranted 0 0; PermissionGranted 5 5] = Some st /\
    active_sessions st = 2%nat /\
    unreleased_sessions st = 2%nat /\
    run st [ClickStop; RecorderStopped 1; Settled 0 NetworkError] = Some st' /\
    idle_presentation (recUI st') /\
    active_sessions st' = 1%nat /\
    unreleased_sessions st' = 1%nat /\
    intervals st' = [0%nat].
Proof.
  eexists. eexists. split; [vm_compute; reflexivity|].
  split; [reflexivity|]. split; [reflexivity|].
  split; [vm_compute; reflexivity|].
  vm_compute. repeat split.
Qed.

(** The chunk sequence is emptied by the grant handler only and grows by
    one buffer, at its end, per ['dataavailable'] event; nothing else
    touches it. *)
Lemma chunks_reset_on_grant_only (st st' : State) (e : Event) :
  step st e = Some st' ->
  audioChunks st' =
    match e with
    | PermissionGranted _ _ => []
    | DataAvailable _ data => audioChunks st ++ [data]
    | _ => audioChunks st
    end.
Proof.
  intros H. destruct e as [value|[f|]| |t0 t1| | |rid data|rid|iid now|fid o].
  - cbn in H. injection H as <-. unfold handleTextSubmit, andThen.
    destruct (falsy (trim value)); reflexivity.
  - cbn in H. injection H as <-. reflexivity.
  - cbn in H. injection H as <-. reflexivity.
  - cbn in H. step_cases H. reflexivity.
  - cbn in H. step_cases H. reflexivity.
  - cbn in H. step_cases H. reflexivity.
  - unfold step, stopRecording in H. step_cases H; reflexivity.
  - cbn in H. step_cases H. reflexivity.
  - cbn in H. step_cases H. unfold on_stop, clearInterval, andThen.
    destruct (recordingTimerInterval _); reflexivity.
  - cbn in H. step_cases H. reflexivity.
  - cbn in H. destruct (pending_variant fid (fetches st)) as [v|];
      [|discriminate H]. injection H as <-.
    destruct v, o as [| |[|data]]; cbn;
      try destruct (is_success data); cbn;
      unfold displayResults, andThen;
      try destruct (truthy (video_path data)); reflexivity.
Qed.

Lemma count_unstopped_app (a b : list Recorder) :
  count_unstopped (a ++ b) = (count_unstopped a + count_unstopped b)%nat.
Proof. unfold count_unstopped. now rewrite filter_app, length_app. Qed.

Lemma count_uploads_app (a b : list (nat * Variant)) :
  count_uploads (a ++ b) = (count_uploads a + count_uploads b)%nat.
Proof. unfold count_uploads. now rewrite filter_app, length_app. Qed.

Lemma set_rec_state_new (l : list Recorder) (x : Recorder) (s : RecorderState) :
  set_rec_state (length l) s (l ++ [x])
  = l ++ [{| rec_state := s; track_stops := track_stops x |}].
Proof.
  unfold set_rec_state. induction l as [|a l IH]; [reflexivity|].
  cbn in *. destruct (nth_error (l ++ [x]) (length l)); f_equal; exact IH.
Qed.

Lemma count_unstopped_cons (r : Recorder) (l : list Recorder) :
  count_unstopped (r :: l)
  = ((if is_unstopped r then 1 else 0) + count_unstopped l)%nat.
Proof. unfold count_unstopped. cbn. now destruct (is_unstopped r). Qed.

Lemma skipn_nth_error (l : list Recorder) (rid : nat) (r : Recorder) :
  nth_error l rid = Some r -> skipn rid l = r :: skipn (S rid) l.
Proof.
  revert rid. induction l as [|x l IH]; intros [|n] H; try discriminate H.
  - injection H as ->. reflexivity.
  - apply (IH n H).
Qed.

Lemma count_set_rec_state (l : list Recorder) (rid : nat) (s : RecorderState)
    (r : Recorder) :
  nth_error l rid = Some r ->
  (count_unstopped (set_rec_state rid s l) + (if is_unstopped r then 1 else 0)
   = count_unstopped l
     + (if is_unstopped {| rec_state := s; track_stops := track_stops r |}
        then 1 else 0))%nat.
Proof.
  intros H. unfold set_rec_state. rewrite H.
  rewrite <- (firstn_skipn rid l) at 3.
  rewrite (skipn_nth_error _ _ _ H), !count_unstopped_app, !count_unstopped_cons.
  lia.
Qed.

Lemma count_stop_tracks (l : list Recorder) (rid : nat) :
  count_unstopped (stop_tracks rid l) = count_unstopped l.
Proof.
  unfold stop_tracks. destruct (nth_error l rid) as [r|] eqn:H; [|reflexivity].
  rewrite <- (firstn_skipn rid l) at 3.
  rewrite (skipn_nth_error _ _ _ H), !count_unstopped_app, !count_unstopped_cons.
  reflexivity.
Qed.

Lemma count_uploads_filter (l : list (nat * Variant)) (fid : nat) :
  (count_uploads (filter (fun p => negb (Nat.eqb (fst p) fid)) l)
   + match pending_variant fid l with
     | Some RecordingSubmission => 1
     | _ => 0
     end <= count_uploads l)%nat.
Proof.
  unfold count_uploads. induction l as [|[i v] l IH]; [cbn; lia|].
  cbn [pending_variant filter fst]. destruct (Nat.eqb i fid); cbn [negb].
  - destruct v; cbn; destruct (pending_variant fid l) as [[]|]; lia.
  - destruct v; cbn; lia.
Qed.

Lemma settle_frame (v : Variant) (o : Settlement) (st : State) :
  recorders (settle v o st) = recorders st /\
  pendingPermissions (settle v o st) = pendingPermissions st /\
  fetches (settle v o st) = fetches st /\
  startBtn_dnone (recUI (settle v o st)) =
    match v with
    | RecordingSubmission => false
    | _ => startBtn_dnone (recUI st)
    end.
Proof.
  destruct v, o as [| |[|data]]; cbn;
    try destruct (is_success data); cbn;
    unfold displayResults, andThen;
    try destruct (truthy (video_path data)); cbn; repeat split.
Qed.

Lemma single_session_step (st st' : State) (e : Event) :
  single_session st -> guarded_step st e = Some st' -> single_session st'.
Proof.
  unfold single_session. intros [J1 [J4 [J2 J3]]] H.
  destruct e as [value|[f|]| |t0 t1| | |rid data|rid|iid now|fid o];
    unfold guarded_step in H.
  - cbn in H. injection H as <-. unfold handleTextSubmit, andThen.
    destruct (falsy (trim value)); cbn; rewrite ?count_uploads_app;
      unfold count_uploads at 2; cbn; rewrite ?Nat.add_0_r; tauto.
  - cbn in H. injection H as <-. cbn. rewrite ?count_uploads_app.
    unfold count_uploads at 2 4. cbn. rewrite ?Nat.add_0_r. tauto.
  - cbn in H. injection H as <-. cbn. tauto.
  - destruct (pendingPermissions st) eqn:P; [|discriminate H].
    cbn in H. destruct (startBtn_dnone (recUI st)) eqn:B; [discriminate H|].
    injection H as <-. cbn. rewrite P, B.
    destruct (J2 eq_refl) as [U _]. repeat split; try lia; discriminate.
  - cbn in H. destruct (pendingPermissions st) as [|n] eqn:P; [discriminate H|].
    injection H as <-.
    destruct (startBtn_dnone (recUI st)) eqn:B; [specialize (J3 eq_refl); lia|].
    destruct (J2 eq_refl) as [U F]. cbn.
    rewrite set_rec_state_new, count_unstopped_app, U, F.
    unfold count_unstopped. cbn. repeat split; try lia; discriminate.
  - cbn in H. destruct (pendingPermissions st) as [|n] eqn:P; [discriminate H|].
    injection H as <-. cbn. repeat split; try tauto; lia.
  - unfold step in H. destruct (stopBtn_dnone (recUI st)); [discriminate H|].
    injection H as <-. unfold stopRecording, recorder_state.
    destruct (mediaRecorder st) as [rid|]; [|tauto].
    destruct (nth_error (recorders st) rid) as [r|] eqn:N; [|cbn; tauto].
    cbn [option_map]. destruct (rec_state r) eqn:R; try tauto.
    pose proof (count_set_rec_state _ _ RStopping _ N) as C.
    unfold is_unstopped in C. rewrite R in C. cbn in C.
    cbn. replace (count_unstopped (set_rec_state rid RStopping (recorders st)))
      with (count_unstopped (recorders st)) by lia.
    tauto.
  - cbn in H. step_cases H. cbn. tauto.
  - cbn in H. destruct (capturing (recorder_state st rid)) eqn:K; [|discriminate H].
    injection H as <-. unfold recorder_state in K.
    destruct (nth_error (recorders st) rid) as [r|] eqn:N; [|discriminate K].
    pose proof (count_set_rec_state _ _ RStopped _ N) as C.
    assert (Hr : is_unstopped r = true).
    { unfold is_unstopped. cbn in K. destruct (rec_state r); congruence. }
    rewrite Hr in C. cbn in C.
    unfold on_stop, clearInterval, andThen.
    destruct (recordingTimerInterval _); cbn;
      rewrite count_stop_tracks, count_uploads_app;
      unfold count_uploads at 2 4; cbn;
      (split; [lia | split; [lia | split; [|exact J3]]];
       intros B; destruct (J2 B); lia).
  - cbn in H. step_cases H. cbn. tauto.
  - cbn in H. destruct (pending_variant fid (fetches st)) as [v|] eqn:P;
      [|discriminate H]. injection H as <-.
    unfold andThen.
    destruct (settle_frame v o (remove_fetch fid st)) as [A [B [C D]]].
    rewrite A, B, C, D. cbn.
    pose proof (count_uploads_filter (fetches st) fid) as F. rewrite P in F.
    destruct v.
    + split; [lia | split; [lia | split; [|exact J3]]].
      intros X. destruct (J2 X). lia.
    + split; [lia | split; [lia | split; [|exact J3]]].
      intros X. destruct (J2 X). lia.
    + assert (Hh : startBtn_dnone (recUI st) = true).
      { destruct (startBtn_dnone (recUI st)) eqn:X; [reflexivity|].
        destruct (J2 eq_refl). lia. }
      specialize (J3 Hh). repeat split; try lia; try discriminate.
Qed.

Lemma active_le_unstopped (st : State) :
  (active_sessions st <= count_unstopped (recorders st))%nat.
Proof.
  unfold active_sessions, count_unstopped.
  induction (recorders st) as [|r l IH]; [reflexivity|].
  cbn. unfold is_unstopped at 1. destruct (rec_state r); cbn; lia.
Qed.

(** X16: when the start button is not clicked while a permission request
    is pending, at most one session captures at any time. *)
Lemma guarded_start_single_session (es : list Event) (st : State) :
  guarded_run page_loaded es = Some st -> (active_sessions st <= 1)%nat.
Proof.
  assert (K : forall es s s', single_session s -> guarded_run s es = Some s' ->
                              single_session s').
  { induction es0 as [|e r IH]; intros s s' I H.
    - injection H as <-. exact I.
    - cbn in H. destruct (guarded_step s e) as [s1|] eqn:E; [|discriminate H].
      apply (IH s1 s'); [now apply (single_session_step s s1 e) | exact H]. }
  intros H. assert (I : single_session page_loaded).
  { unfold single_session, count_unstopped, count_uploads. cbn.
    repeat split; try lia; try discriminate. }
  destruct (K es _ _ I H) as [J1 _].
  pose proof (active_le_unstopped st). lia.
Qed.

(** ** Requests and notifications per event *)

Lemma settle_effects (v : Variant) (o : Settlement) (st : State) :
  requests (log (settle v o st)) = requests (log st) /\
  toasts (log (settle v o st)) =
    toasts (log st) ++
    match branch_of o with
    | Some Success => []
    | Some NonSuccessStatus => [failure_message v]
    | Some TransportFailure | None => [generic_error]
    end /\
  resUI (settle v o st) = results_after o st.
Proof.
  destruct v, o as [| |[|data]]; cbn;
    try destruct (is_success data); cbn;
    unfold displayResults, andThen;
    try destruct (truthy (video_path data)); log_norm; repeat split.
Qed.

Lemma toasts_step (st st' : State) (e : Event) :
  step st e = Some st' ->
  toasts (log st') = toasts (log st) ++ new_toasts st e.
Proof.
  intros H. destruct e as [value|[f|]| |t0 t1| | |rid data|rid|iid now|fid o].
  - cbn in H. injection H as <-. unfold handleTextSubmit, andThen.
    destruct (falsy (trim value)); now log_norm.
  - cbn in H. injection H as <-. now log_norm.
  - cbn in H. injection H as <-. now log_norm.
  - cbn in H. step_cases H. now log_norm.
  - cbn in H. step_cases H. now log_norm.
  - cbn in H. step_cases H. now log_norm.
  - unfold step, stopRecording in H. step_cases H; now log_norm.
  - cbn in H. step_cases H. now log_norm.
  - cbn in H. step_cases H. unfold on_stop, clearInterval, andThen.
    destruct (recordingTimerInterval _); now log_norm.
  - cbn in H. step_cases H. now log_norm.
  - cbn in H. unfold new_toasts.
    destruct (pending_variant fid (fetches st)) as [v|];
      [|discriminate H]. injection H as <-.
    apply (settle_effects v o (remove_fetch fid st)).
Qed.

(** X1: an event issues exactly one request when it dispatches a
    submission and none otherwise; in particular a settlement, failed or
    not, never sends again. *)
Theorem one_request_per_submission (st st' : State) (e : Event) :
  step st e = Some st' ->
  length (requests (log st')) =
  (length (requests (log st)) + match submits e with Some _ => 1 | None => 0 end)%nat.
Proof.
  intros H. destruct (submits e) as [v|] eqn:S.
  - destruct (dispatch_shows_loading _ _ _ _ S H) as [[pre [r [Hl [Hr _]]]] _].
    rewrite Hl, !requests_app, Hr, !length_app. reflexivity.
  - destruct e as [value|[f|]| |t0 t1| | |rid data|rid|iid now|fid o];
      cbn in S; try discriminate S.
    + cbn in H. injection H as <-. unfold handleTextSubmit, andThen.
      destruct (falsy (trim value)); [|discriminate S]. log_norm. lia.
    + cbn in H. injection H as <-. log_norm. lia.
    + cbn in H. step_cases H. log_norm. lia.
    + cbn in H. step_cases H. log_norm. lia.
    + cbn in H. step_cases H. log_norm. lia.
    + unfold step, stopRecording in H. step_cases H; log_norm; lia.
    + cbn in H. step_cases H. log_norm. lia.
    + cbn in H. step_cases H. log_norm. lia.
    + cbn in H. destruct (pending_variant fid (fetches st)) as [v|];
        [|discriminate H]. injection H as <-.
      destruct (settle_effects v o (remove_fetch fid st)) as [R _].
      unfold andThen. rewrite R. cbn. lia.
Qed.

Lemma one_request_per_submission_witness :
  length (requests (log (after [SubmitText (lit "hi"); Settled 0 NetworkError])))
  = 1%nat.
Proof.
  assert (H1 : step page_loaded (SubmitText (lit "hi"))
               = Some (after [SubmitText (lit "hi")]))
    by (vm_compute; reflexivity).
  assert (H2 : step (after [SubmitText (lit "hi")]) (Settled 0 NetworkError)
               = Some (after [SubmitText (lit "hi"); Settled 0 NetworkError]))
    by (vm_compute; reflexivity).
  rewrite (one_request_per_submission _ _ _ H2),
          (one_request_per_submission _ _ _ H1).
  reflexivity.
Defined.

(** X2: what an event notifies: one toast with the microphone message on
    a denied permission; on a settlement nothing in the success branch, the
    variant's own message on a non-success status, the generic message on a
    transport or parse failure or a null body; nothing on any other event. *)
Theorem notifications_per_event (st st' : State) (e : Event) :
  step st e = Some st' ->
  toasts (log st') = toasts (log st) ++ new_toasts st e /\
  (length (new_toasts st e) <= 1)%nat.
Proof.
  intros H. split; [now apply toasts_step|].
  destruct e; cbn; try lia.
  destruct (pending_variant fid (fetches st)); [|cbn; lia].
  destruct (branch_of o) as [[]|]; cbn; lia.
Qed.

Lemma notifications_per_event_witness :
  toasts (log (after [ClickStart; PermissionDenied])) = [microphone_error].
Proof.
  assert (H : step (after [ClickStart]) PermissionDenied
              = Some (after [ClickStart; PermissionDenied]))
    by (vm_compute; reflexivity).
  exact (proj1 (notifications_per_event _ _ _ H)).
Defined.

(** X3: whatever the server answers, every message handed to [showError]
    is one of the script's five literals: no text from a response is ever
    put into a notification. *)
Theorem notifications_are_fixed_literals (st st' : State) (e : Event) :
  step st e = Some st' ->
  exists added, toasts (log st') = toasts (log st) ++ added /\
                forall m, In m added -> In m known_messages.
Proof.
  intros H. exists (new_toasts st e). split; [now apply toasts_step|].
  intros m Hm. destruct e; cbn in Hm; try contradiction.
  - destruct Hm as [<-|[]]. unfold known_messages. cbn. tauto.
  - destruct (pending_variant fid (fetches st)) as [v|]; [|contradiction].
    destruct (branch_of o) as [[]|]; cbn in Hm; try contradiction;
      destruct Hm as [<-|[]]; unfold known_messages; cbn;
      try destruct v; tauto.
Qed.

Lemma notifications_are_fixed_literals_witness :
  let o := Body (JObject {| status := Some (lit "<b>no</b>");
                            english_text := None; isl_text := None;
                            video_path := None |}) in
  exists added,
    toasts (log (after [SubmitText (lit "hi"); Settled 0 o])) =
      toasts (log (after [SubmitText (lit "hi")])) ++ added /\
    forall m, In m added -> In m known_messages.
Proof.
  intros o.
  assert (H : step (after [SubmitText (lit "hi")]) (Settled 0 o)
              = Some (after [SubmitText (lit "hi"); Settled 0 o]))
    by (vm_compute; reflexivity).
  exact (notifications_are_fixed_literals _ _ _ H).
Defined.

(** X4: a settlement renders results in the success branch only; a
    non-success status, a transport or parse failure and a null body leave
    the results region exactly as it was. *)
Theorem results_change_on_success_only
    (st st' : State) (fid : nat) (o : Settlement) :
  step st (Settled fid o) = Some st' ->
  resUI st' = results_after o st /\
  (branch_of o <> Some Success -> resUI st' = resUI st).
Proof.
  intros H. cbn in H.
  destruct (pending_variant fid (fetches st)) as [v|]; [|discriminate H].
  injection H as <-. unfold andThen.
  destruct (settle_effects v o (remove_fetch fid st)) as [_ [_ R]].
  assert (E : results_after o (remove_fetch fid st) = results_after o st).
  { destruct o as [| |[|data]]; cbn; try reflexivity.
    destruct (is_success data); [|reflexivity].
    unfold displayResults, andThen.
    destruct (truthy (video_path data)); reflexivity. }
  rewrite R, E. split; [reflexivity|].
  intros N. destruct o as [| |[|data]]; cbn in *; try reflexivity.
  destruct (is_success data); [congruence | reflexivity].
Qed.

Lemma results_change_on_success_only_witness :
  let es := [SubmitText (lit "hi")] in
  resUI (after (es ++ [Settled 0 BodyNotJson])) = resUI (after es).
Proof.
  intros es.
  assert (H : step (after es) (Settled 0 BodyNotJson)
              = Some (after (es ++ [Settled 0 BodyNotJson])))
    by (vm_compute; reflexivity).
  apply (proj2 (results_change_on_success_only _ _ _ _ H)). discriminate.
Defined.

(** X5: a refused microphone creates no session: recorders, the script's
    recorder variable, the chunks, the timers and the recording controls
    stay as they were, no request leaves, and one notification is shown. *)
Theorem permission_denied_creates_no_session (st st' : State) :
  step st PermissionDenied = Some st' ->
  recorders st' = recorders st /\
  mediaRecorder st' = mediaRecorder st /\
  audioChunks st' = audioChunks st /\
  intervals st' = intervals st /\
  recUI st' = recUI st /\
  requests (log st') = requests (log st) /\
  toasts (log st') = toasts (log st) ++ [microphone_error] /\
  S (pendingPermissions st') = pendingPermissions st.
Proof.
  intros H. cbn in H. destruct (pendingPermissions st) as [|n] eqn:P;
    [discriminate H|]. injection H as <-. log_norm. repeat split.
Qed.

Lemma permission_denied_creates_no_session_witness :
  recorders (after [ClickStart; PermissionDenied]) = [] /\
  idle_presentation (recUI (after [ClickStart; PermissionDenied])).
Proof.
  assert (H : step (after [ClickStart]) PermissionDenied
              = Some (after [ClickStart; PermissionDenied]))
    by (vm_compute; reflexivity).
  destruct (permission_denied_creates_no_session _ _ H) as [R [_ [_ [_ [U _]]]]].
  split; [exact R|]. rewrite U. vm_compute. repeat split.
Defined.

(** ** The overlay under several submissions *)

Lemma pending_variant_other (l : list (nat * Variant)) (fid fid' : nat) :
  fid' <> fid ->
  pending_variant fid' (filter (fun p => negb (Nat.eqb (fst p) fid)) l)
  = pending_variant fid' l.
Proof.
  intros N. induction l as [|[i v] l IH]; [reflexivity|].
  cbn [filter fst]. destruct (Nat.eqb i fid) eqn:E; cbn [negb pending_variant].
  - apply Nat.eqb_eq in E. subst i.
    replace (Nat.eqb fid fid') with false
      by (symmetry; apply Nat.eqb_neq; congruence).
    exact IH.
  - destruct (Nat.eqb i fid'); [reflexivity | exact IH].
Qed.

(** X6: the overlay is not counted: when one of two submissions in
    flight settles, the overlay is hidden although the other is still
    awaited. *)
Theorem first_settlement_hides_overlay
    (st st' : State) (fid fid' : nat) (v' : Variant) (o : Settlement) :
  step st (Settled fid o) = Some st' ->
  fid' <> fid -> pending_variant fid' (fetches st) = Some v' ->
  loadingOverlay_dnone st' = true /\
  pending_variant fid' (fetches st') = Some v'.
Proof.
  intros H N P. cbn in H.
  destruct (pending_variant fid (fetches st)) as [v|]; [|discriminate H].
  injection H as <-. unfold andThen.
  destruct (settle_hides_loading v o (remove_fetch fid st)) as [A [B _]].
  split; [exact A|]. rewrite B. cbn. now rewrite pending_variant_other.
Qed.

Lemma first_settlement_hides_overlay_witness :
  let es := [SubmitText (lit "one"); SubmitText (lit "two")] in
  loadingOverlay_dnone (after (es ++ [Settled 0 NetworkError])) = true /\
  pending_variant 1 (fetches (after (es ++ [Settled 0 NetworkError])))
  = Some TextSubmission.
Proof.
  intros es.
  assert (H : step (after es) (Settled 0 NetworkError)
              = Some (after (es ++ [Settled 0 NetworkError])))
    by (vm_compute; reflexivity).
  apply (first_settlement_hides_overlay _ _ 0%nat 1%nat TextSubmission _ H);
    [discriminate | reflexivity].
Defined.

(** X7: in every state the page can reach, the overlay is shown only while
    some request is in flight: once nothing is awaited it is hidden. *)
Theorem overlay_hidden_when_nothing_in_flight (es : list Event) (st : State) :
  run page_loaded es = Some st ->
  fetches st = [] -> loadingOverlay_dnone st = true.
Proof.
  assert (K : forall es s s',
             (fetches s = [] -> loadingOverlay_dnone s = true) ->
             run s es = Some s' ->
             fetches s' = [] -> loadingOverlay_dnone s' = true).
  { induction es0 as [|e r IH]; intros s s' I H.
    - injection H as <-. exact I.
    - cbn in H. destruct (step s e) as [s1|] eqn:E; [|discriminate H].
      apply (IH s1 s'); [|exact H]. clear IH H. intros F.
      destruct (submits e) as [v|] eqn:S.
      + destruct (dispatch_shows_loading _ _ _ _ S E) as [_ [_ D]].
        rewrite D in F. destruct (fetches s); discriminate F.
      + destruct (quiet e) eqn:Q.
        * destruct (quiet_step _ _ _ Q E) as [A [B _]].
          rewrite A. apply I. congruence.
        * destruct e as [value|[f|]| |t0 t1| | |rid data|rid|iid now|fid o];
            cbn in Q, S; try rewrite S in Q; try discriminate Q;
            try discriminate S.
          cbn in E. destruct (pending_variant fid (fetches s)) as [v|];
            [|discriminate E]. injection E as <-.
          apply (settle_hides_loading v o (remove_fetch fid s)). }
  intros H. apply (K es page_loaded st); [reflexivity | exact H].
Qed.

Lemma overlay_hidden_when_nothing_in_flight_witness :
  let o := Body JNull in
  loadingOverlay_dnone
    (after [SubmitFile (Some {| file_name := lit "a.wav";
                                file_content := new_Blob [] [] |});
            ClickStart; Settled 0 o]) = true.
Proof.
  intros o.
  apply (overlay_hidden_when_nothing_in_flight
           [SubmitFile (Some {| file_name := lit "a.wav";
                                file_content := new_Blob [] [] |});
            ClickStart; Settled 0 o]);
    vm_compute; reflexivity.
Defined.

(** X8: a body that parses to [null] is handled as an error after the
    data handler has begun: the overlay is hidden by two calls, the generic
    message is shown (not the variant's own), nothing is rendered, and for a
    recording the controls are reset all the same. *)
Theorem null_body_handled_as_error (v : Variant) (st : State) :
  let st' := settle v (Body JNull) st in
  loadingOverlay_dnone st' = true /\
  hides (log st') = (hides (log st) + 2)%nat /\
  toasts (log st') = toasts (log st) ++ [generic_error] /\
  resUI st' = resUI st /\
  match v with
  | RecordingSubmission => idle_presentation (recUI st')
  | _ => recUI st' = recUI st
  end.
Proof.
  unfold idle_presentation. destruct v; log_norm; repeat split; lia.
Qed.

(** X9: the results region after a render depends on the payload alone:
    no text or media source of an earlier result survives it. *)
Theorem render_overwrites_results (data : ResultPayload) (st1 st2 : State) :
  resUI (displayResults data st1) = resUI (displayResults data st2).
Proof.
  unfold displayResults, andThen.
  destruct (truthy (video_path data)); reflexivity.
Qed.

(** ** Recorders, tracks and timers *)

Lemma set_rec_state_update (rid : nat) (s : RecorderState) (l : list Recorder) :
  set_rec_state rid s l
  = update_at rid (fun r => {| rec_state := s; track_stops := track_stops r |}) l.
Proof.
  unfold set_rec_state. revert rid.
  induction l as [|x l IH]; intros [|n]; try reflexivity.
  specialize (IH n). cbn in *.
  destruct (nth_error l n); cbn; now f_equal.
Qed.

Lemma stop_tracks_update (rid : nat) (l : list Recorder) :
  stop_tracks rid l
  = update_at rid (fun r => {| rec_state := rec_state r;
                               track_stops := S (track_stops r) |}) l.
Proof.
  unfold stop_tracks. revert rid.
  induction l as [|x l IH]; intros [|n]; try reflexivity.
  specialize (IH n). cbn in *.
  destruct (nth_error l n); cbn; now f_equal.
Qed.

Lemma nth_error_update_at (n : nat) (f : Recorder -> Recorder)
    (l : list Recorder) :
  nth_error (update_at n f l) n = option_map f (nth_error l n).
Proof.
  revert n. induction l as [|x l IH]; intros [|n]; try reflexivity.
  apply IH.
Qed.

Lemma update_at_twice (n : nat) (f g : Recorder -> Recorder)
    (l : list Recorder) :
  update_at n g (update_at n f l) = update_at n (fun r => g (f r)) l.
Proof.
  revert n. induction l as [|x l IH]; intros [|n]; try reflexivity.
  cbn. now rewrite IH.
Qed.

Lemma forallb_update_at (p : Recorder -> bool) (n : nat)
    (f : Recorder -> Recorder) (l : list Recorder) :
  forallb p l = true ->
  (forall r, nth_error l n = Some r -> p (f r) = true) ->
  forallb p (update_at n f l) = true.
Proof.
  revert n. induction l as [|x l IH]; intros [|n] H K; try reflexivity.
  - cbn in *. apply andb_prop in H as [_ H]. now rewrite (K x eq_refl), H.
  - cbn in *. apply andb_prop in H as [Hx H]. rewrite Hx. cbn.
    apply IH; assumption.
Qed.

(** X10: a stop click acts once: after [stopRecording] a second call
    changes nothing, and with no recorder yet the first changes nothing
    either. *)
Theorem stopRecording_acts_once (st : State) :
  stopRecording (stopRecording st) = stopRecording st /\
  (mediaRecorder st = None -> stopRecording st = st).
Proof.
  assert (Noop : forall s,
             match mediaRecorder s with
             | Some rid => recorder_state s rid <> Some RRecording
             | None => True
             end -> stopRecording s = s).
  { intros s C. unfold stopRecording. destruct (mediaRecorder s) as [rid|];
      [|reflexivity].
    destruct (recorder_state s rid) as [[]|]; congruence. }
  split; [|intros M; apply Noop; now rewrite M].
  destruct (mediaRecorder st) as [rid|] eqn:M;
    [|rewrite (Noop st); [apply Noop|]; now rewrite M].
  unfold recorder_state in Noop.
  destruct (nth_error (recorders st) rid) as [r|] eqn:N;
    [|rewrite (Noop st); [apply Noop|]; rewrite M, N; discriminate].
  destruct (rec_state r) eqn:R;
    try (rewrite (Noop st); [apply Noop|]; rewrite M, N; cbn; congruence).
  apply Noop. unfold stopRecording, recorder_state. rewrite M, N. cbn.
  rewrite R. cbn. rewrite M, set_rec_state_update, nth_error_update_at, N.
  cbn. discriminate.
Qed.

Lemma run_snoc (es : list Event) (e : Event) (s : State) :
  run s (es ++ [e]) =
  match run s es with
  | Some s1 => step s1 e
  | None => None
  end.
Proof.
  revert s. induction es as [|x es IH]; intros s; cbn.
  - now destruct (step s e).
  - destruct (step s x); [apply IH | reflexivity].
Qed.

Lemma released_step (st st' : State) (e : Event) :
  step st e = Some st' ->
  forallb released_on_stop (recorders st) = true ->
  forallb released_on_stop (recorders st') = true.
Proof.
  intros H I. destruct e as [value|[f|]| |t0 t1| | |rid data|rid|iid now|fid o].
  - cbn in H. injection H as <-. unfold handleTextSubmit, andThen.
    destruct (falsy (trim value)); exact I.
  - cbn in H. injection H as <-. exact I.
  - cbn in H. injection H as <-. exact I.
  - cbn in H. step_cases H. exact I.
  - cbn in H. step_cases H. cbn.
    rewrite set_rec_state_new, forallb_app, I. reflexivity.
  - cbn in H. step_cases H. exact I.
  - unfold step in H. destruct (stopBtn_dnone (recUI st)); [discriminate H|].
    injection H as <-. unfold stopRecording, recorder_state.
    destruct (mediaRecorder st) as [rid|]; [|exact I].
    destruct (nth_error (recorders st) rid) as [r|] eqn:N; [|exact I].
    cbn [option_map]. destruct (rec_state r) eqn:R; try exact I.
    cbn. rewrite set_rec_state_update. apply forallb_update_at; [exact I|].
    intros r' N'. rewrite N in N'. injection N' as <-.
    assert (Hr : released_on_stop r = true).
    { rewrite forallb_forall in I. apply I. eapply nth_error_In, N. }
    unfold released_on_stop in *. rewrite R in Hr. exact Hr.
  - cbn in H. step_cases H. exact I.
  - cbn in H. destruct (capturing (recorder_state st rid)) eqn:K;
      [|discriminate H]. injection H as <-.
    assert (E : recorders
                  ((set_recorders (set_rec_state rid RStopped (recorders st));;
                    on_stop rid) st)
                = stop_tracks rid (set_rec_state rid RStopped (recorders st))).
    { unfold on_stop, clearInterval, andThen.
      destruct (recordingTimerInterval _); reflexivity. }
    rewrite E, set_rec_state_update, stop_tracks_update, update_at_twice.
    apply forallb_update_at; [exact I|]. intros r N.
    assert (Hr : released_on_stop r = true).
    { rewrite forallb_forall in I. apply I. eapply nth_error_In, N. }
    unfold recorder_state in K. rewrite N in K. cbn in K.
    unfold released_on_stop in *. cbn.
    destruct (rec_state r); try discriminate K; exact Hr.
  - cbn in H. step_cases H. exact I.
  - cbn in H. destruct (pending_variant fid (fetches st)) as [v|];
      [|discriminate H]. injection H as <-. unfold andThen.
    destruct (settle_frame v o (remove_fetch fid st)) as [A _].
    rewrite A. exact I.
Qed.

(** X11: in every state the page can reach, each session's device track
    has been released exactly once if its stop was handled and not at all
    before that; a track is never released twice. *)
Theorem track_released_once_on_stop (es : list Event) (st : State) :
  run page_loaded es = Some st ->
  forall r, In r (recorders st) ->
  track_stops r = match rec_state r with RStopped => 1%nat | _ => 0%nat end /\
  rec_state r <> RNew.
Proof.
  assert (K : forall es s s',
             forallb released_on_stop (recorders s) = true ->
             run s es = Some s' ->
             forallb released_on_stop (recorders s') = true).
  { induction es0 as [|e r IH]; intros s s' I H.
    - injection H as <-. exact I.
    - cbn in H. destruct (step s e) as [s1|] eqn:E; [|discriminate H].
      apply (IH s1 s'); [now apply (released_step s s1 e) | exact H]. }
  intros H r Hr. specialize (K es page_loaded st eq_refl H).
  rewrite forallb_forall in K. specialize (K r Hr).
  unfold released_on_stop in K.
  destruct (rec_state r); try discriminate K;
    (split; [now apply Nat.eqb_eq in K | discriminate]).
Qed.

Lemma track_released_once_on_stop_witness :
  let es := [ClickStart; PermissionGranted 0 0; ClickStop; RecorderStopped 0] in
  track_stops (nth 0 (recorders (after es))
                   {| rec_state := RNew; track_stops := 0 |}) = 1%nat.
Proof.
  intros es.
  exact (proj1 (track_released_once_on_stop
                  es (after es) ltac:(vm_compute; reflexivity)
                  (nth 0 (recorders (after es))
                       {| rec_state := RNew; track_stops := 0 |})
                  ltac:(vm_compute; left; reflexivity))).
Defined.

(** ** What a recording uploads *)

Lemma run_capture (es : list Event) (st st' : State) :
  run st es = Some st' -> audioChunks st' = capture (audioChunks st) es.
Proof.
  revert st. induction es as [|e r IH]; intros st H.
  - injection H as <-. reflexivity.
  - cbn in H. destruct (step st e) as [s1|] eqn:E; [|discriminate H].
    rewrite (IH s1 H). unfold capture. cbn [fold_left].
    rewrite (chunks_reset_on_grant_only _ _ _ E). reflexivity.
Qed.

Lemma capture_buffers (es : list Event) (acc : list Blob) :
  forallb (fun e => negb (is_grant e)) es = true ->
  capture acc es = acc ++ buffers es.
Proof.
  revert acc. unfold capture, buffers.
  induction es as [|e r IH]; intros acc H; [now rewrite app_nil_r|].
  cbn in H. apply andb_prop in H as [He Hr]. cbn [fold_left flat_map].
  rewrite (IH _ Hr). destruct e; try discriminate He; cbn;
    rewrite <- ?app_assoc; reflexivity.
Qed.

Lemma capture_since_grant (before since : list Event) (t0 t1 : Z)
    (acc : list Blob) :
  forallb (fun e => negb (is_grant e)) since = true ->
  capture acc (before ++ PermissionGranted t0 t1 :: since) = buffers since.
Proof.
  intros H. unfold capture. rewrite fold_left_app. cbn [fold_left].
  apply (capture_buffers since [] H).
Qed.

Lemma on_stop_request (rid : nat) (st : State) :
  requests (log (on_stop rid st)) =
    requests (log st) ++
    [{| req_url := lit "/record_audio"; req_method := lit "POST";
        req_body :=
          [(lit "audio", FBlob (new_Blob (audioChunks st) (lit "audio/webm")))] |}].
Proof.
  unfold on_stop, clearInterval, andThen.
  destruct (recordingTimerInterval st); now log_norm.
Qed.

(** X12: when a recorder's stop is handled, the blob uploaded holds the
    buffers delivered since the latest grant, by any recorder, one after
    the other in arrival order, and nothing delivered before that grant. *)
Theorem upload_carries_capture_since_grant
    (st st1 st2 : State) (before since : list Event) (t0 t1 : Z) (rid : nat) :
  run st (before ++ PermissionGranted t0 t1 :: since) = Some st1 ->
  forallb (fun e => negb (is_grant e)) since = true ->
  step st1 (RecorderStopped rid) = Some st2 ->
  requests (log st2) =
    requests (log st1) ++
    [{| req_url := lit "/record_audio"; req_method := lit "POST";
        req_body :=
          [(lit "audio",
            FBlob {| blob_bytes := concat (map blob_bytes (buffers since));
                     blob_type := lit "audio/webm" |})] |}].
Proof.
  intros R G H. cbn in H.
  destruct (capturing (recorder_state st1 rid)); [|discriminate H].
  injection H as <-. unfold andThen. rewrite on_stop_request. cbn.
  rewrite (run_capture _ _ _ R), (capture_since_grant _ _ _ _ _ G).
  reflexivity.
Qed.

Lemma upload_carries_capture_since_grant_witness :
  let chunk b := {| blob_bytes := b; blob_type := [] |} in
  let since := [DataAvailable 0 (chunk [Byte.x01]); Tick 0 1500; ClickStop;
                DataAvailable 0 (chunk [Byte.x02; Byte.x03])] in
  let es := [ClickStart] ++ PermissionGranted 0 0 :: since in
  requests (log (after (es ++ [RecorderStopped 0]))) =
    [{| req_url := lit "/record_audio"; req_method := lit "POST";
        req_body :=
          [(lit "audio",
            FBlob {| blob_bytes := [Byte.x01; Byte.x02; Byte.x03];
                     blob_type := lit "audio/webm" |})] |}].
Proof.
  intros chunk since es.
  assert (R : run page_loaded ([ClickStart] ++ PermissionGranted 0 0 :: since)
              = Some (after es)) by (vm_compute; reflexivity).
  assert (H : step (after es) (RecorderStopped 0)
              = Some (after (es ++ [RecorderStopped 0])))
    by (vm_compute; reflexivity).
  rewrite (upload_carries_capture_since_grant _ _ _ _ _ _ _ _ R eq_refl H).
  vm_compute. reflexivity.
Defined.

(** ** Ticks *)

Lemma start_time_step (st st' : State) (e : Event) :
  step st e = Some st' ->
  (intervals st = [] \/ recordingStartTime st <> None) ->
  intervals st' = [] \/ recordingStartTime st' <> None.
Proof.
  intros H I. destruct e as [value|[f|]| |t0 t1| | |rid data|rid|iid now|fid o].
  - cbn in H. injection H as <-. unfold handleTextSubmit, andThen.
    destruct (falsy (trim value)); exact I.
  - cbn in H. injection H as <-. exact I.
  - cbn in H. injection H as <-. exact I.
  - cbn in H. step_cases H. exact I.
  - cbn in H. step_cases H. right. discriminate.
  - cbn in H. step_cases H. exact I.
  - unfold step, stopRecording in H. step_cases H; exact I.
  - cbn in H. step_cases H. exact I.
  - cbn in H. step_cases H. unfold on_stop, clearInterval, andThen.
    destruct (recordingTimerInterval st) as [i|] eqn:T; cbn; rewrite ?T; cbn;
      [|exact I].
    destruct I as [I|I]; [left; now rewrite I | right; exact I].
  - cbn in H. step_cases H. exact I.
  - cbn in H. destruct (pending_variant fid (fetches st)) as [v|];
      [|discriminate H]. injection H as <-.
    destruct v, o as [| |[|data]]; cbn;
      try destruct (is_success data); cbn;
      unfold displayResults, andThen;
      try destruct (truthy (video_path data)); exact I.
Qed.

(** X13: in every state the page can reach, a tick finds the start
    instant set: the text it writes is computed from that instant and the
    tick's clock reading, never from an unset variable. *)
Theorem tick_finds_start_time
    (es : list Event) (st st' : State) (iid : nat) (now : Z) :
  run page_loaded es = Some st ->
  step st (Tick iid now) = Some st' ->
  exists s, recordingStartTime st = Some s /\
            recordingTimer_text (recUI st') = timer_text (Some s) now.
Proof.
  assert (K : forall es s s',
             (intervals s = [] \/ recordingStartTime s <> None) ->
             run s es = Some s' ->
             intervals s' = [] \/ recordingStartTime s' <> None).
  { induction es0 as [|e r IH]; intros s s' I H.
    - injection H as <-. exact I.
    - cbn in H. destruct (step s e) as [s1|] eqn:E; [|discriminate H].
      apply (IH s1 s'); [now apply (start_time_step s s1 e) | exact H]. }
  intros R H. specialize (K es page_loaded st (or_introl eq_refl) R).
  cbn in H. destruct (existsb (Nat.eqb iid) (intervals st)) eqn:X;
    [|discriminate H]. injection H as <-.
  destruct K as [K|K]; [rewrite K in X; discriminate X|].
  destruct (recordingStartTime st) as [s|] eqn:S; [|congruence].
  exists s. split; [reflexivity|]. cbn. now rewrite S.
Qed.

Lemma tick_finds_start_time_witness :
  recordingTimer_text
    (recUI (after [ClickStart; PermissionGranted 1000 1000; Tick 0 62000]))
  = lit "01:01".
Proof.
  destruct (tick_finds_start_time
              [ClickStart; PermissionGranted 1000 1000]
              (after [ClickStart; PermissionGranted 1000 1000])
              (after [ClickStart; PermissionGranted 1000 1000; Tick 0 62000])
              0 62000 ltac:(vm_compute; reflexivity)
              ltac:(vm_compute; reflexivity)) as [s [S T]].
  rewrite T. vm_compute in S. injection S as <-. vm_compute. reflexivity.
Defined.

Lemma dec_digits_nonempty (fuel : nat) (n : Z) : dec_digits (S fuel) n <> [].
Proof.
  cbn. destruct (n <? 10); [discriminate|].
  destruct (dec_digits fuel (n / 10)); discriminate.
Qed.

(** X14: a clock reading earlier than the start instant (the wall clock
    was set back) makes the timer text begin with a minus sign: the minutes
    are negative and padding adds nothing to them. *)
Theorem clock_set_back_shows_minus (s now : Z) :
  now < s ->
  exists rest, timer_text (Some s) now = 45%N :: rest.
Proof.
  intros H. unfold timer_text, floor_div.
  assert (He : (now - s) / 1000 < 0) by (apply Z.div_lt_upper_bound; lia).
  assert (Hm : (now - s) / 1000 / 60 < 0) by (apply Z.div_lt_upper_bound; lia).
  unfold toString at 1. apply Z.ltb_lt in Hm. rewrite Hm.
  unfold dec_fuel at 1.
  pose proof (dec_digits_nonempty
                (Z.to_nat (Z.log2 (- ((now - s) / 1000 / 60))))
                (- ((now - s) / 1000 / 60))) as N.
  destruct (dec_digits _ (- ((now - s) / 1000 / 60))) as [|d ds];
    [congruence|].
  unfold padStart. cbn. eexists. reflexivity.
Qed.

Lemma clock_set_back_shows_minus_witness :
  exists rest, timer_text (Some 5000) 4999 = 45%N :: rest.
Proof. apply clock_set_back_shows_minus. lia. Defined.

(** ** The timer under a guarded start *)

Lemma timer_follows_session_step (st st' : State) (e : Event) :
  single_session st -> timer_follows_session st ->
  guarded_step st e = Some st' -> timer_follows_session st'.
Proof.
  unfold single_session, timer_follows_session.
  intros [J1 [J4 [J2 J3]]] [T0 T1] H.
  destruct e as [value|[f|]| |t0 t1| | |rid data|rid|iid now|fid o];
    unfold guarded_step in H.
  - cbn in H. injection H as <-. unfold handleTextSubmit, andThen.
    destruct (falsy (trim value)); split; assumption.
  - cbn in H. injection H as <-. split; assumption.
  - cbn in H. injection H as <-. split; assumption.
  - destruct (pendingPermissions st); [|discriminate H].
    cbn in H. step_cases H. split; assumption.
  - cbn in H. destruct (pendingPermissions st) as [|n] eqn:P; [discriminate H|].
    injection H as <-.
    destruct (startBtn_dnone (recUI st)) eqn:B; [specialize (J3 eq_refl); lia|].
    destruct (J2 eq_refl) as [U _]. cbn.
    rewrite set_rec_state_new, count_unstopped_app, U, (T0 U).
    unfold count_unstopped. cbn. split; [discriminate|].
    intros _. eexists. split; reflexivity.
  - cbn in H. step_cases H. split; assumption.
  - unfold step in H. destruct (stopBtn_dnone (recUI st)); [discriminate H|].
    injection H as <-. unfold stopRecording, recorder_state.
    destruct (mediaRecorder st) as [rid|]; [|split; assumption].
    destruct (nth_error (recorders st) rid) as [r|] eqn:N; [|split; assumption].
    cbn [option_map]. destruct (rec_state r) eqn:R; try (split; assumption).
    pose proof (count_set_rec_state _ _ RStopping _ N) as C.
    unfold is_unstopped in C. rewrite R in C. cbn in C.
    cbn. replace (count_unstopped (set_rec_state rid RStopping (recorders st)))
      with (count_unstopped (recorders st)) by lia.
    split; assumption.
  - cbn in H. step_cases H. split; assumption.
  - cbn in H. destruct (capturing (recorder_state st rid)) eqn:K; [|discriminate H].
    injection H as <-. unfold recorder_state in K.
    destruct (nth_error (recorders st) rid) as [r|] eqn:N; [|discriminate K].
    pose proof (count_set_rec_state _ _ RStopped _ N) as C.
    assert (Hr : is_unstopped r = true).
    { unfold is_unstopped. cbn in K. destruct (rec_state r); congruence. }
    rewrite Hr in C. cbn in C.
    assert (U : count_unstopped (recorders st) = 1%nat) by lia.
    destruct (T1 U) as [i [Hi Hv]].
    unfold on_stop, clearInterval, andThen. cbn. rewrite Hv. cbn.
    rewrite count_stop_tracks, Hi. cbn. rewrite Nat.eqb_refl. cbn.
    split; [reflexivity | lia].
  - cbn in H. step_cases H. split; assumption.
  - cbn in H. destruct (pending_variant fid (fetches st)) as [v|];
      [|discriminate H]. injection H as <-.
    destruct v, o as [| |[|data]]; cbn;
      try destruct (is_success data); cbn;
      unfold displayResults, andThen;
      try destruct (truthy (video_path data)); split; assumption.
Qed.

Lemma guarded_invariants (es : list Event) (s s' : State) :
  single_session s -> timer_follows_session s ->
  guarded_run s es = Some s' ->
  single_session s' /\ timer_follows_session s'.
Proof.
  revert s. induction es as [|e r IH]; intros s I T H.
  - injection H as <-. split; assumption.
  - cbn in H. destruct (guarded_step s e) as [s1|] eqn:E; [|discriminate H].
    apply (IH s1); [| |exact H].
    + now apply (single_session_step s s1 e).
    + now apply (timer_follows_session_step s s1 e).
Qed.

(** X15: when the start button is not clicked while a permission request
    is pending, the timer is registered exactly while a session is not yet
    stopped: no session, no timer; one session, one timer, the one the
    script's variable holds. *)
Theorem timer_registered_while_recording (es : list Event) (st : State) :
  guarded_run page_loaded es = Some st ->
  (count_unstopped (recorders st) = 0%nat /\ intervals st = []) \/
  (count_unstopped (recorders st) = 1%nat /\
   exists i, intervals st = [i] /\ recordingTimerInterval st = Some i).
Proof.
  intros H.
  assert (I : single_session page_loaded).
  { unfold single_session, count_unstopped, count_uploads. cbn.
    repeat split; try lia; try discriminate. }
  assert (T : timer_follows_session page_loaded).
  { unfold timer_follows_session, count_unstopped. cbn.
    split; [reflexivity | discriminate]. }
  destruct (guarded_invariants es _ _ I T H) as [[J1 _] [T0 T1]].
  destruct (count_unstopped (recorders st)) as [|[|n]] eqn:U.
  - left. split; [reflexivity | now apply T0].
  - right. split; [reflexivity | now apply T1].
  - lia.
Qed.

Lemma timer_registered_while_recording_witness :
  intervals (after [ClickStart; PermissionGranted 0 0; Tick 0 1000; ClickStop;
                    RecorderStopped 0]) = [].
Proof.
  destruct (timer_registered_while_recording
              [ClickStart; PermissionGranted 0 0; Tick 0 1000; ClickStop;
               RecorderStopped 0] _ ltac:(vm_compute; reflexivity))
    as [[_ E]|[U _]]; [exact E | vm_compute in U; discriminate U].
Defined.

Lemma guarded_start_single_session_witness :
  (active_sessions
     (after [ClickStart; PermissionGranted 0 0; ClickStop; RecorderStopped 0;
             Settled 0 NetworkError; ClickStart; PermissionGranted 9 9])
   <= 1)%nat.
Proof.
  apply (guarded_start_single_session
           [ClickStart; PermissionGranted 0 0; ClickStop; RecorderStopped 0;
            Settled 0 NetworkError; ClickStart; PermissionGranted 9 9]).
  vm_compute. reflexivity.
Defined.

Lemma results_region_never_hidden_witness :
  let p := {| status := Some (lit "success"); english_text := Some (lit "hello");
              isl_text := None; video_path := None |} in
  let es := [SubmitText (lit "hi"); Settled 0 (Body (JObject p))] in
  resultsSection_dnone (resUI (after (es ++ [SubmitText (lit "again")]))) = false.
Proof.
  intros p es.
  apply (results_region_never_hidden (after es) _ (SubmitText (lit "again")));
    vm_compute; reflexivity.
Defined.

Lemma stopRecording_acts_once_witness :
  stopRecording page_loaded = page_loaded /\
  stopRecording (stopRecording (after [ClickStart; PermissionGranted 0 0]))
  = stopRecording (after [ClickStart; PermissionGranted 0 0]).
Proof.
  split.
  - exact (proj2 (stopRecording_acts_once page_loaded) eq_refl).
  - exact (proj1 (stopRecording_acts_once
                    (after [ClickStart; PermissionGranted 0 0]))).
Defined.

(** ** Starting, and what submissions leave alone *)

(** X18: what a granted permission leaves: the controls in the recording
    presentation, an empty chunk sequence, the script's recorder variable
    on a new recorder that is recording, and, when the two clock readings
    are less than a second apart, the timer at 00:00. *)
Theorem grant_starts_recording (st st' : State) (t0 t1 : Z) :
  step st (PermissionGranted t0 t1) = Some st' ->
  t0 <= t1 < t0 + 1000 ->
  startBtn_dnone (recUI st') = true /\
  startBtn_recording (recUI st') = true /\
  stopBtn_dnone (recUI st') = false /\
  recordingStatus_text (recUI st') = lit "Recording..." /\
  recordingTimer_dnone (recUI st') = false /\
  recordingTimer_text (recUI st') = lit "00:00" /\
  audioChunks st' = [] /\
  mediaRecorder st' = Some (length (recorders st)) /\
  recorder_state st' (length (recorders st)) = Some RRecording /\
  recorders st' = recorders st ++ [{| rec_state := RRecording; track_stops := 0 |}].
Proof.
  intros H T. cbn in H. destruct (pendingPermissions st); [discriminate H|].
  injection H as <-.
  assert (E : timer_text (Some t0) t1 = lit "00:00").
  { rewrite timer_text_MMSS by lia.
    replace ((t1 - t0) / 1000) with 0; [reflexivity|].
    symmetry. apply Z.div_small. lia. }
  unfold recorder_state. cbn -[timer_text].
  rewrite E, set_rec_state_new, nth_error_app2, Nat.sub_diag by lia.
  repeat split.
Qed.

Lemma grant_starts_recording_witness :
  recordingTimer_text (recUI (after [ClickStart; PermissionGranted 500 501]))
  = lit "00:00" /\
  recorder_state (after [ClickStart; PermissionGranted 500 501]) 0
  = Some RRecording.
Proof.
  destruct (grant_starts_recording
              (after [ClickStart])
              (after [ClickStart; PermissionGranted 500 501]) 500 501
              ltac:(vm_compute; reflexivity) ltac:(lia))
    as [_ [_ [_ [_ [_ [A [_ [_ [B _]]]]]]]]].
  split; [exact A | exact B].
Defined.

(** X19: text and file submissions, and their settlements, leave a
    recording alone: the recording controls, the recorders, the chunks, the
    timers and the script's recording variables are as before. *)
Theorem submissions_leave_recording_alone (st st' : State) (e : Event) :
  step st e = Some st' ->
  match e with
  | SubmitText _ | SubmitFile _ => True
  | Settled fid _ =>
      pending_variant fid (fetches st) <> Some RecordingSubmission
  | _ => False
  end ->
  recUI st' = recUI st /\
  recorders st' = recorders st /\
  audioChunks st' = audioChunks st /\
  intervals st' = intervals st /\
  mediaRecorder st' = mediaRecorder st /\
  recordingStartTime st' = recordingStartTime st /\
  recordingTimerInterval st' = recordingTimerInterval st.
Proof.
  intros H C. destruct e as [value|[f|]| |t0 t1| | |rid data|rid|iid now|fid o];
    try contradiction.
  - cbn in H. injection H as <-. unfold handleTextSubmit, andThen.
    destruct (falsy (trim value)); repeat split.
  - cbn in H. injection H as <-. repeat split.
  - cbn in H. injection H as <-. repeat split.
  - cbn in H. destruct (pending_variant fid (fetches st)) as [v|];
      [|discriminate H]. injection H as <-.
    destruct v; try congruence; destruct o as [| |[|data]]; cbn;
      try destruct (is_success data); cbn;
      unfold displayResults, andThen;
      try destruct (truthy (video_path data)); repeat split.
Qed.

Lemma submissions_leave_recording_alone_witness :
  let es := [ClickStart; PermissionGranted 0 0] in
  recUI (after (es ++ [SubmitText (lit "hi")])) = recUI (after es) /\
  recorders (after (es ++ [SubmitText (lit "hi")])) = recorders (after es).
Proof.
  intros es.
  destruct (submissions_leave_recording_alone
              (after es) (after (es ++ [SubmitText (lit "hi")]))
              (SubmitText (lit "hi")) ltac:(vm_compute; reflexivity) I)
    as [A [B _]].
  split; [exact A | exact B].
Defined.

(** ** One submission, two hides *)

(** C3 (a run of the script against it): each handler of a settlement
    begins with [hideLoading], but the failure handler is chained after the
    data handler, so it also runs when the data handler throws.  A body that
    parses to [null] makes it throw at [data.status], after it has hidden
    the overlay: one submission, one request, two calls of [hideLoading],
    for every variant and from every state. *)
Theorem null_response_hides_twice :
  (exists st,
     run page_loaded [SubmitText (lit "hi"); Settled 0 (Body JNull)] = Some st /\
     length (requests (log st)) = 1%nat /\
     hides (log st) = 2%nat /\
     loadingOverlay_dnone st = true /\
     toasts (log st) = [generic_error]) /\
  (forall v st, hides (log (settle v (Body JNull) st)) = (hides (log st) + 2)%nat).
Proof.
  split.
  - eexists. split; [vm_compute; reflexivity|]. vm_compute. repeat split.
  - intros v st. apply settle_hides_loading.
Qed.

(** ** The timer across ticks *)

Lemma start_time_kept (st st' : State) (e : Event) :
  step st e = Some st' -> is_grant e = false ->
  recordingStartTime st' = recordingStartTime st.
Proof.
  intros H G. destruct e as [value|[f|]| |t0 t1| | |rid data|rid|iid now|fid o];
    try discriminate G.
  - cbn in H. injection H as <-. unfold handleTextSubmit, andThen.
    destruct (falsy (trim value)); reflexivity.
  - cbn in H. injection H as <-. reflexivity.
  - cbn in H. injection H as <-. reflexivity.
  - cbn in H. step_cases H. reflexivity.
  - cbn in H. step_cases H. reflexivity.
  - unfold step, stopRecording in H. step_cases H; reflexivity.
  - cbn in H. step_cases H. reflexivity.
  - cbn in H. step_cases H. unfold on_stop, clearInterval, andThen.
    destruct (recordingTimerInterval _); reflexivity.
  - cbn in H. step_cases H. reflexivity.
  - cbn in H. destruct (pending_variant fid (fetches st)) as [v|];
      [|discriminate H]. injection H as <-.
    destruct v, o as [| |[|data]]; cbn;
      try destruct (is_success data); cbn;
      unfold displayResults, andThen;
      try destruct (truthy (video_path data)); reflexivity.
Qed.

Lemma start_time_kept_run (es : list Event) (st st' : State) :
  run st es = Some st' ->
  forallb (fun e => negb (is_grant e)) es = true ->
  recordingStartTime st' = recordingStartTime st.
Proof.
  revert st. induction es as [|e r IH]; intros st H G.
  - injection H as <-. reflexivity.
  - cbn in H, G. apply andb_prop in G as [Ge Gr].
    destruct (step st e) as [s1|] eqn:E; [|discriminate H].
    rewrite (IH s1 H Gr). apply (start_time_kept st s1 e E).
    now apply negb_true_iff in Ge.
Qed.

Lemma tick_text (st st' : State) (iid : nat) (now : Z) :
  step st (Tick iid now) = Some st' ->
  recordingTimer_text (recUI st') = timer_text (recordingStartTime st) now.
Proof.
  intros H. cbn in H. destruct (existsb _ _); [|discriminate H].
  injection H as <-. reflexivity.
Qed.

Lemma toString_three_digits (n : Z) :
  100 <= n -> (3 <= length (toString n))%nat.
Proof.
  intros H. rewrite toString_nonneg by lia. unfold dec_fuel.
  assert (Hl : 6 <= Z.log2 n) by (apply Z.log2_le_pow2; simpl; lia).
  destruct (Z.to_nat (Z.log2 n)) as [|[|k]] eqn:E; try lia.
  rewrite dec_digits_big by lia.
  rewrite dec_digits_big by (apply Z.div_le_lower_bound; lia).
  rewrite !length_app. cbn [length].
  pose proof (dec_digits_nonempty k (n / 10 / 10)) as N.
  destruct (dec_digits (S k) (n / 10 / 10)); [congruence | cbn; lia].
Qed.

(** The claimed format fails from 100 minutes on, and the claimed order
    fails across a second grant: with two sessions started by two clicks,
    the first session's timer shows 00:10 and, after the second grant has
    overwritten the start instant, 00:00 one second later. *)
Lemma timer_text_not_MMSS_nor_monotone :
  timer_text (Some 0) 6000000 = lit "100:00" /\
  exists st1 st2,
    run page_loaded [ClickStart; ClickStart; PermissionGranted 0 0;
                     Tick 0 10000] = Some st1 /\
    run st1 [PermissionGranted 10500 10500; Tick 0 11000] = Some st2 /\
    recordingTimer_text (recUI st1) = lit "00:10" /\
    recordingTimer_text (recUI st2) = lit "00:00" /\
    recorder_state st2 0 = Some RRecording /\
    read_timer (recordingTimer_text (recUI st1)) = Some 10 /\
    read_timer (recordingTimer_text (recUI st2)) = Some 0.
Proof.
  split; [reflexivity|].
  eexists. eexists. split; [vm_compute; reflexivity|].
  split; [vm_compute; reflexivity|]. vm_compute. repeat split.
Qed.

(** C5 (as the script has it): a tick at instant [t], not before the start
    instant [s] the latest grant recorded, shows floor((t-s)/1000) seconds
    as minutes floor(e/60), a colon and seconds e mod 60, each zero-padded
    to width 2 when shorter: exactly MM:SS below 100 minutes, a minutes
    field of three or more digits from 100 minutes on.  Read back as a
    duration the text is that number of seconds, and a later tick with no
    grant in between, at a clock reading not earlier, never shows less. *)
Theorem timer_shows_elapsed_MMSS
    (st st1 st2 st3 : State) (es : list Event) (iid iid' : nat) (s t t' : Z) :
  recordingStartTime st = Some s -> s <= t -> t <= t' ->
  step st (Tick iid t) = Some st1 ->
  forallb (fun e => negb (is_grant e)) es = true ->
  run st1 es = Some st2 ->
  step st2 (Tick iid' t') = Some st3 ->
  let e := (t - s) / 1000 in
  let shown := recordingTimer_text (recUI st1) in
  let shown' := recordingTimer_text (recUI st3) in
  shown = MMSS e /\
  (e < 6000 ->
   shown = two_digits (e / 60) ++ lit ":" ++ two_digits (e mod 60)) /\
  (6000 <= e ->
   shown = toString (e / 60) ++ lit ":" ++ two_digits (e mod 60) /\
   (3 <= length (toString (e / 60)))%nat) /\
  read_timer shown = Some e /\
  read_timer shown' = Some ((t' - s) / 1000) /\
  e <= (t' - s) / 1000.
Proof.
  intros Hs Ht Ht' H1 G R H3 e shown shown'.
  assert (S1 : recordingStartTime st1 = Some s).
  { rewrite (start_time_kept _ _ _ H1 eq_refl). exact Hs. }
  assert (S2 : recordingStartTime st2 = Some s).
  { rewrite (start_time_kept_run _ _ _ R G). exact S1. }
  assert (E1 : shown = MMSS e).
  { unfold shown. rewrite (tick_text _ _ _ _ H1), Hs.
    now apply timer_text_MMSS. }
  assert (E3 : shown' = MMSS ((t' - s) / 1000)).
  { unfold shown'. rewrite (tick_text _ _ _ _ H3), S2.
    apply timer_text_MMSS. lia. }
  assert (He : 0 <= e) by (apply Z.div_pos; lia).
  assert (Hsec : (e mod 60 <? 100) = true).
  { apply Z.ltb_lt. pose proof (Z.mod_pos_bound e 60). lia. }
  split; [exact E1|]. split; [|split; [|split; [|split]]].
  - intros Hb. rewrite E1. unfold MMSS, zero_padded2. rewrite Hsec.
    replace (e / 60 <? 100) with true; [reflexivity|].
    symmetry. apply Z.ltb_lt, Z.div_lt_upper_bound; lia.
  - intros Hb.
    assert (Hm : 100 <= e / 60) by (apply Z.div_le_lower_bound; lia).
    split; [|now apply toString_three_digits].
    rewrite E1. unfold MMSS, zero_padded2. rewrite Hsec.
    replace (e / 60 <? 100) with false; [reflexivity|].
    symmetry. apply Z.ltb_ge. exact Hm.
  - rewrite E1. now apply read_timer_MMSS.
  - rewrite E3. apply read_timer_MMSS. apply Z.div_pos; lia.
  - apply Z.div_le_mono; lia.
Qed.

Lemma timer_shows_elapsed_MMSS_witness :
  let es := [ClickStart; PermissionGranted 1000 1000] in
  let between := [Tick 0 77500; SubmitText (lit "hi")] in
  recordingTimer_text (recUI (after (es ++ [Tick 0 76999]))) = lit "01:15" /\
  read_timer (recordingTimer_text
                (recUI (after (es ++ [Tick 0 76999] ++ between ++ [Tick 0 80000]))))
  = Some 79.
Proof.
  intros es between.
  assert (H1 : step (after es) (Tick 0 76999) = Some (after (es ++ [Tick 0 76999])))
    by (vm_compute; reflexivity).
  assert (R : run (after (es ++ [Tick 0 76999])) between
              = Some (after (es ++ [Tick 0 76999] ++ between)))
    by (vm_compute; reflexivity).
  assert (H3 : step (after (es ++ [Tick 0 76999] ++ between)) (Tick 0 80000)
               = Some (after (es ++ [Tick 0 76999] ++ between ++ [Tick 0 80000])))
    by (vm_compute; reflexivity).
  destruct (timer_shows_elapsed_MMSS
              (after es) _ _ _ between 0 0 1000 76999 80000
              eq_refl ltac:(lia) ltac:(lia) H1 eq_refl R H3)
    as [A [_ [_ [_ [B _]]]]].
  split; [exact A | exact B].
Defined.
